(** * Shapes: the polygon editor of [src/components/Canvas.tsx]

    A shallow embedding of the geometry kernel, the edge-insertion resolver
    and the tool/drag state machine of the [Canvas] component, followed by
    the properties established about them.

    Conventions of the embedding.
    - A JavaScript [number] holding a coordinate or a distance is an IEEE 754
      binary64 value: Rocq's primitive [float].  [a > b] is [b <? a],
      [a === b] on numbers is [=?], [Math.sqrt] is [sqrt] and
      [Math.pow(v, 2)] is [v * v] (the case [y = 2] of the usual [pow]).
    - A [number] used as an array index or a length is a [nat]; the only
      negative index of the source, the sentinel [-1] of [insertIndex], is
      kept as a [Z] inside the loop that owns it.
    - The eight [useState] cells of the component form the record [State].
      A handler reads the cells of the render it was created in and its
      setter calls take effect together afterwards, so a handler is a
      function from the state it reads to the state it leaves.
    - Reading a property of [undefined] throws a [TypeError]; a handler that
      can do so returns [option State], [None] standing for the throw.
    - The redraw effect is the list of calls it makes on the 2D context of a
      canvas that exists, or [None] when it throws. *)

From Stdlib Require Import Floats ZArith Lia List Bool String.
From stdpp Require Import base list.
Import ListNotations.

(* ===================================================================== *)
(** * Data model *)
(* ===================================================================== *)

Record Point : Set := mkPoint { x : float; y : float }.

Record Polygon : Set := mkPolygon { points : list Point; color : string }.

Inductive Tool : Set := hand | pencil | select.

Inductive DragMode : Set := move | resize.

Definition HANDLE_SIZE : float := 8%float.
Definition EDGE_DETECTION_THRESHOLD : float := 10%float.

(** The distance below which a click closes the shape being drawn: the
    literal [20] of [handlePencilInteraction]. *)
Definition CLOSE_THRESHOLD : float := 20%float.

Definition colors : list string :=
  [ "#3498db"; "#e74c3c"; "#2ecc71"; "#f1c40f";
    "#9b59b6"; "#1abc9c"; "#e67e22"; "#34495e" ]%string.

(** The [useState] cells of [Canvas]. *)
Record State : Set := mkState {
  currentPoints : list Point;
  polygons : list Polygon;
  selectedPolygon : option nat;
  isDragging : bool;
  dragStart : option Point;
  activeTool : Tool;
  dragMode : DragMode;
  selectedHandle : option nat
}.

(** The initial values given to [useState]. *)
Definition init : State :=
  {| currentPoints := []; polygons := []; selectedPolygon := None;
     isDragging := false; dragStart := None; activeTool := pencil;
     dragMode := move; selectedHandle := None |}.

Definition Tool_eqb (a b : Tool) : bool :=
  match a, b with
  | hand, hand | pencil, pencil | select, select => true
  | _, _ => false
  end.

Definition DragMode_eqb (a b : DragMode) : bool :=
  match a, b with
  | move, move | resize, resize => true
  | _, _ => false
  end.

(** ** The setters *)

Definition setCurrentPoints (v : list Point) (s : State) : State :=
  mkState v (polygons s) (selectedPolygon s) (isDragging s) (dragStart s)
          (activeTool s) (dragMode s) (selectedHandle s).
Definition setPolygons (v : list Polygon) (s : State) : State :=
  mkState (currentPoints s) v (selectedPolygon s) (isDragging s) (dragStart s)
          (activeTool s) (dragMode s) (selectedHandle s).
Definition setSelectedPolygon (v : option nat) (s : State) : State :=
  mkState (currentPoints s) (polygons s) v (isDragging s) (dragStart s)
          (activeTool s) (dragMode s) (selectedHandle s).
Definition setIsDragging (v : bool) (s : State) : State :=
  mkState (currentPoints s) (polygons s) (selectedPolygon s) v (dragStart s)
          (activeTool s) (dragMode s) (selectedHandle s).
Definition setDragStart (v : option Point) (s : State) : State :=
  mkState (currentPoints s) (polygons s) (selectedPolygon s) (isDragging s) v
          (activeTool s) (dragMode s) (selectedHandle s).
Definition setActiveTool (v : Tool) (s : State) : State :=
  mkState (currentPoints s) (polygons s) (selectedPolygon s) (isDragging s)
          (dragStart s) v (dragMode s) (selectedHandle s).
Definition setDragMode (v : DragMode) (s : State) : State :=
  mkState (currentPoints s) (polygons s) (selectedPolygon s) (isDragging s)
          (dragStart s) (activeTool s) v (selectedHandle s).
Definition setSelectedHandle (v : option nat) (s : State) : State :=
  mkState (currentPoints s) (polygons s) (selectedPolygon s) (isDragging s)
          (dragStart s) (activeTool s) (dragMode s) v.

(* ===================================================================== *)
(** * Geometry kernel *)
(* ===================================================================== *)

Section Geometry.
Local Open Scope float_scope.

(** [Math.sqrt(Math.pow(a.x - b.x, 2) + Math.pow(a.y - b.y, 2))], written
    out three times in the source with different operands. *)
Definition distance (a b : Point) : float :=
  sqrt ((x a - x b) * (x a - x b) + (y a - y b) * (y a - y b)).

(** The numbers computed by [projectPointOnLine] before it decides. *)
Definition segmentLength (start end_ : Point) : float :=
  let dx := x end_ - x start in
  let dy := y end_ - y start in
  sqrt (dx * dx + dy * dy).

Definition projectionParameter (point start end_ : Point) : float :=
  let dx := x end_ - x start in
  let dy := y end_ - y start in
  let length := sqrt (dx * dx + dy * dy) in
  ((x point - x start) * dx + (y point - y start) * dy) / (length * length).

Definition projectPointOnLine (point start end_ : Point) : option Point :=
  let dx := x end_ - x start in
  let dy := y end_ - y start in
  let length := sqrt (dx * dx + dy * dy) in
  if length =? 0 then None
  else
    let t := ((x point - x start) * dx + (y point - y start) * dy)
             / (length * length) in
    if (t <? 0) || (1 <? t) then None
    else Some {| x := x start + t * dx; y := y start + t * dy |}.

Definition isPointNearHandle (point handlePoint : Point) : bool :=
  distance handlePoint point <? HANDLE_SIZE.

(** The test made on edge [(i, j)] by [isPointInPolygon]. *)
Definition intersect (point pi pj : Point) : bool :=
  let xi := x pi in let yi := y pi in
  let xj := x pj in let yj := y pj in
  xorb (y point <? yi) (y point <? yj)
  && (x point <? ((xj - xi) * (y point - yi)) / (yj - yi) + xi).

(** One turn of [for (let i = 0, j = n - 1; i < n; j = i++)]: the loop
    state is [(inside, j)].  Both reads are in range on every turn. *)
Definition crossingStep (point : Point) (polygonPoints : list Point)
    (st : bool * nat) (i : nat) : bool * nat :=
  let '(inside, j) := st in
  match polygonPoints !! i, polygonPoints !! j with
  | Some pi, Some pj =>
      (if intersect point pi pj then negb inside else inside, i)
  | _, _ => (inside, i)
  end.

Definition isPointInPolygon (point : Point) (polygonPoints : list Point)
    : bool :=
  let n := length polygonPoints in
  fst (fold_left (crossingStep point polygonPoints) (seq 0 n)
                 (false, (n - 1)%nat)).

End Geometry.

(* ===================================================================== *)
(** * Edge-insertion resolver *)
(* ===================================================================== *)

(** The three [let] variables of [findClosestEdgePoint]. *)
Record EdgeScan : Set := mkEdgeScan {
  closestPoint : option Point;
  closestDistance : float;
  insertIndex : Z
}.

(** The value [{ point, index }] returned by [findClosestEdgePoint]. *)
Record EdgePoint : Set := mkEdgePoint { ep_point : Point; ep_index : nat }.

Section EdgeInsertion.
Local Open Scope float_scope.

Definition edgeScanInit : EdgeScan :=
  {| closestPoint := None; closestDistance := infinity;
     insertIndex := (-1)%Z |}.

(** The projection computed for edge [i]: [start = pts[i]] and
    [end = pts[(i + 1) % pts.length]]. *)
Definition edgeProjection (point : Point) (polygonPoints : list Point)
    (i : nat) : option Point :=
  match polygonPoints !! i,
        polygonPoints !! ((i + 1) mod length polygonPoints)%nat with
  | Some start, Some end_ => projectPointOnLine point start end_
  | _, _ => None
  end.

(** One turn of the loop over [i]. *)
Definition edgeScanStep (point : Point) (polygonPoints : list Point)
    (acc : EdgeScan) (i : nat) : EdgeScan :=
  match edgeProjection point polygonPoints i with
  | None => acc
  | Some projection =>
      let d := distance point projection in
      if (d <? EDGE_DETECTION_THRESHOLD) && (d <? closestDistance acc)
      then {| closestPoint := Some projection; closestDistance := d;
              insertIndex := (Z.of_nat i + 1)%Z |}
      else acc
  end.

Definition edgeScan (point : Point) (polygonPoints : list Point)
    (idx : list nat) (acc : EdgeScan) : EdgeScan :=
  fold_left (edgeScanStep point polygonPoints) idx acc.

Definition findClosestEdgePoint (point : Point) (polygonPoints : list Point)
    : option EdgePoint :=
  let r := edgeScan point polygonPoints (seq 0 (length polygonPoints))
                    edgeScanInit in
  match closestPoint r with
  | Some p => Some {| ep_point := p; ep_index := Z.to_nat (insertIndex r) |}
  | None => None
  end.

End EdgeInsertion.

(* ===================================================================== *)
(** * Interaction state machine *)
(* ===================================================================== *)

(** A loop that leaves at the first index passing [test]
    ([return] or [break] in the body). *)
Fixpoint findFirst (idx : list nat) (test : nat -> bool) : option nat :=
  match idx with
  | [] => None
  | i :: rest => if test i then Some i else findFirst rest test
  end.

(** [for (let i = n - 1; i >= 0; i--)] visits these indices. *)
Definition downFrom (n : nat) : list nat := rev (seq 0 n).

(** [l.splice(start, 0, item)] for a [start] that is not negative;
    a [start] past the end appends, as in JavaScript. *)
Definition splice {A : Type} (start : nat) (item : A) (l : list A) : list A :=
  take start l ++ item :: drop start l.

(** [{ ...polygon, points: updatedPoints }] *)
Definition withPoints (polygon : Polygon) (updatedPoints : list Point)
    : Polygon :=
  {| points := updatedPoints; color := color polygon |}.

(** The edge-splitting loop of [handlePencilInteraction]: the state left by
    the first polygon, scanning down, that yields an edge point. *)
Fixpoint edgeSplit (point : Point) (s : State) (idx : list nat)
    : option State :=
  match idx with
  | [] => None
  | i :: rest =>
      match polygons s !! i with
      | Some polygon =>
          match findClosestEdgePoint point (points polygon) with
          | Some edgePoint =>
              let updatedPoints :=
                splice (ep_index edgePoint) (ep_point edgePoint)
                       (points polygon) in
              let updatedPolygons :=
                <[i := withPoints polygon updatedPoints]> (polygons s) in
              Some (setSelectedHandle (Some (ep_index edgePoint))
                     (setSelectedPolygon (Some i)
                       (setPolygons updatedPolygons s)))
          | None => edgeSplit point s rest
          end
      | None => edgeSplit point s rest
      end
  end.

(** The guard of the first branch of [handlePencilInteraction]. *)
Definition closesShape (point : Point) (s : State) : bool :=
  (2 <? length (currentPoints s))%nat
  && match currentPoints s !! 0%nat with
     | Some startPoint => (distance startPoint point <? CLOSE_THRESHOLD)%float
     | None => false
     end.

Definition handlePencilInteraction (point : Point) (s : State) : State :=
  if closesShape point s then
    setCurrentPoints []
      (setPolygons
         (polygons s ++
            [ {| points := currentPoints s;
                 color := nth (length (polygons s) mod length colors) colors
                              ""%string |} ])
         s)
  else
    match (if (length (currentPoints s) =? 0)%nat
           then edgeSplit point s (downFrom (length (polygons s)))
           else None) with
    | Some s' => s'
    | None => setCurrentPoints (currentPoints s ++ [point]) s
    end.

(** The second half of [handleStart]: the scan of the fill regions. *)
Definition selectByFill (point : Point) (s : State) : State :=
  match findFirst (downFrom (length (polygons s)))
          (fun i => match polygons s !! i with
                    | Some polygon => isPointInPolygon point (points polygon)
                    | None => false
                    end) with
  | Some i =>
      setDragMode move
        (setDragStart (Some point)
          (setIsDragging true (setSelectedPolygon (Some i) s)))
  | None => setSelectedHandle None (setSelectedPolygon None s)
  end.

Definition handleStart (point : Point) (s : State) : option State :=
  if Tool_eqb (activeTool s) pencil then Some s
  else
    match (if Tool_eqb (activeTool s) select then selectedPolygon s
           else None) with
    | Some sp =>
        match polygons s !! sp with
        | None => None
        | Some polygon =>
            match findFirst (seq 0 (length (points polygon)))
                    (fun i => match points polygon !! i with
                              | Some handlePoint =>
                                  isPointNearHandle point handlePoint
                              | None => false
                              end) with
            | Some i =>
                Some (setDragStart (Some point)
                       (setIsDragging true
                         (setSelectedHandle (Some i)
                           (setDragMode resize s))))
            | None => Some (selectByFill point s)
            end
        end
    | None => Some (selectByFill point s)
    end.

(** The polygon list built by [handleMove]; [None] when a read of
    [updatedPolygons[selectedPolygon]] or [updatedPoints[selectedHandle]]
    finds [undefined]. *)
Definition movedPolygons (dx dy : float) (sp : nat) (s : State)
    : option (list Polygon) :=
  let updatedPolygons := polygons s in
  match DragMode_eqb (dragMode s) resize, selectedHandle s with
  | true, Some sh =>
      match updatedPolygons !! sp with
      | None => None
      | Some polygon =>
          let updatedPoints := points polygon in
          match updatedPoints !! sh with
          | None => None
          | Some old =>
              Some (<[sp := withPoints polygon
                              (<[sh := {| x := (x old + dx)%float;
                                          y := (y old + dy)%float |}]>
                                 updatedPoints)]>
                      updatedPolygons)
          end
      end
  | _, _ =>
      if DragMode_eqb (dragMode s) move then
        match updatedPolygons !! sp with
        | None => None
        | Some polygon =>
            let updatedPoints :=
              map (fun p => {| x := (x p + dx)%float; y := (y p + dy)%float |})
                  (points polygon) in
            Some (<[sp := withPoints polygon updatedPoints]> updatedPolygons)
        end
      else Some updatedPolygons
  end.

Definition handleMove (point : Point) (s : State) : option State :=
  if negb (isDragging s) then Some s
  else
    match selectedPolygon s, dragStart s with
    | Some sp, Some ds =>
        let dx := (x point - x ds)%float in
        let dy := (y point - y ds)%float in
        match movedPolygons dx dy sp s with
        | None => None
        | Some updatedPolygons =>
            Some (setDragStart (Some point) (setPolygons updatedPolygons s))
        end
    | _, _ => Some s
    end.

Definition handleEnd (s : State) : State :=
  let s' := setDragMode move (setDragStart None (setIsDragging false s)) in
  if negb (isDragging s) then setSelectedHandle None s' else s'.

Definition handleInteraction (point : Point) (s : State) : State :=
  if isDragging s then s
  else if Tool_eqb (activeTool s) pencil then handlePencilInteraction point s
  else s.

Definition handleToolChange (tool : Tool) (s : State) : State :=
  let s1 := setActiveTool tool s in
  let s2 := if Tool_eqb tool pencil
            then setSelectedHandle None (setSelectedPolygon None s1)
            else s1 in
  let s3 := setDragStart None (setIsDragging false s2) in
  if Tool_eqb tool hand || Tool_eqb tool select
  then setCurrentPoints [] s3
  else s3.

(** ** Events

    The handlers as the canvas and the toolbar wire them: [Press] is
    [onMouseDown] (and [onTouchStart] outside the pencil tool), [Move] is
    [onMouseMove]/[onTouchMove], [Release] is
    [onMouseUp]/[onMouseLeave]/[onTouchEnd]/[onTouchCancel], [Commit] is
    [onClick] (and [onTouchStart] under the pencil tool), [SetTool] is a
    toolbar button. *)
Inductive Event : Set :=
| Press (point : Point)
| Move (point : Point)
| Release
| Commit (point : Point)
| SetTool (tool : Tool).

Definition step (s : State) (e : Event) : option State :=
  match e with
  | Press point => handleStart point s
  | Move point => handleMove point s
  | Release => Some (handleEnd s)
  | Commit point => Some (handleInteraction point s)
  | SetTool tool => Some (handleToolChange tool s)
  end.

Fixpoint run (s : State) (es : list Event) : option State :=
  match es with
  | [] => Some s
  | e :: rest =>
      match step s e with
      | Some s' => run s' rest
      | None => None
      end
  end.

(** The states the component can be in: those some sequence of events
    leads to from the initial one. *)
Definition reachable (s : State) : Prop :=
  exists es : list Event, run init es = Some s.

(* ===================================================================== *)
(** * Notions used to state the properties *)
(* ===================================================================== *)

(** The number of points of each committed polygon, in store order. *)
Definition shape (ps : list Polygon) : list nat :=
  (fun polygon => length (points polygon)) <$> ps.

Record Inv (s : State) : Prop := mkInv {
  inv_points : Forall (fun n => 3 <= n) (shape (polygons s));
  inv_selected : forall k, selectedPolygon s = Some k -> k < length (polygons s);
  inv_pencil : activeTool s = pencil -> isDragging s = false;
  inv_resize :
    isDragging s = true -> dragMode s = resize ->
    forall k h, selectedPolygon s = Some k -> selectedHandle s = Some h ->
    exists n, shape (polygons s) !! k = Some n /\ h < n;
  inv_anchor : isDragging s = true -> is_Some (dragStart s)
}.

(** How one event changes the point counts of the store: not at all, or by
    one more polygon of more than two points, or by one more point in one
    polygon. *)
Definition shapeChange (before after : list nat) : Prop :=
  after = before
  \/ (exists n, 2 < n /\ after = before ++ [n])
  \/ (exists i n, before !! i = Some n /\ after = <[i := S n]> before).

(** The index before [i] around a polygon of [n] points. *)
Definition wrapPrev (n i : nat) : nat :=
  match i with
  | 0 => n - 1
  | S k => k
  end.

(** Whether edge [(i, i - 1 wrapping)] counts as a crossing: the edge
    straddles the horizontal line through the point and the point is left of
    the intercept. *)
Definition crossesAt (point : Point) (polygonPoints : list Point) (i : nat)
    : bool :=
  match polygonPoints !! i,
        polygonPoints !! wrapPrev (length polygonPoints) i with
  | Some pi, Some pj => intersect point pi pj
  | _, _ => false
  end.

(** The number of edges that count as a crossing. *)
Definition crossingCount (point : Point) (polygonPoints : list Point) : nat :=
  length (filter (fun i => crossesAt point polygonPoints i = true)
                 (seq 0 (length polygonPoints))).

(** Edge [i] is a candidate with projection [q]. *)
Definition candidate (point : Point) (polygonPoints : list Point)
    (i : nat) (q : Point) : Prop :=
  edgeProjection point polygonPoints i = Some q
  /\ (distance point q <? EDGE_DETECTION_THRESHOLD)%float = true.

(** What the loop variables hold once the edges below [k] are scanned. *)
Definition scanned (point : Point) (polygonPoints : list Point)
    (k : nat) (acc : EdgeScan) : Prop :=
  match closestPoint acc with
  | None =>
      closestDistance acc = infinity
      /\ forall j q, j < k -> ~ candidate point polygonPoints j q
  | Some q =>
      closestDistance acc = distance point q
      /\ exists i : nat,
           i < k
           /\ insertIndex acc = (Z.of_nat i + 1)%Z
           /\ candidate point polygonPoints i q
           /\ forall j q', j < k -> candidate point polygonPoints j q' ->
                (distance point q' <? distance point q)%float = false
                /\ (j < i ->
                    (distance point q <? distance point q')%float = true)
  end.

(* ===================================================================== *)
(** * Sample points, states and event sequences *)
(* ===================================================================== *)

Definition pt (a b : float) : Point := {| x := a; y := b |}.

(** Three clicks of the pencil, then the click that closes the triangle. *)
Definition drawTriangle : list Event :=
  [ Commit (pt 0 0); Commit (pt 100 0); Commit (pt 100 100) ].

Definition afterThreeClicks : State :=
  {| currentPoints := [pt 0 0; pt 100 0; pt 100 100]; polygons := [];
     selectedPolygon := None; isDragging := false; dragStart := None;
     activeTool := pencil; dragMode := move; selectedHandle := None |}.

Definition triangle : Polygon :=
  {| points := [pt 0 0; pt 100 0; pt 100 100]; color := "#3498db" |}.

Definition afterTriangle : State :=
  {| currentPoints := []; polygons := [triangle];
     selectedPolygon := None; isDragging := false; dragStart := None;
     activeTool := pencil; dragMode := move; selectedHandle := None |}.

(** A state no event sequence produces: a resize drag with no handle. *)
Definition resizeWithoutHandle : State :=
  {| currentPoints := []; polygons := [triangle];
     selectedPolygon := Some 0%nat; isDragging := true;
     dragStart := Some (pt 10 10); activeTool := select;
     dragMode := resize; selectedHandle := None |}.

(** A triangle is drawn, the hand tool is chosen, a press lands inside the
    triangle and a second press (another button, another finger) lands
    outside every polygon before any release. *)
Definition pressTwice : list Event :=
  drawTriangle
  ++ [ Commit (pt 5 5); SetTool hand; Press (pt 80 20); Press (pt 500 500) ].

Definition dragWithoutSelection : State :=
  {| currentPoints := []; polygons := [triangle];
     selectedPolygon := None; isDragging := true;
     dragStart := Some (pt 80 20); activeTool := hand;
     dragMode := move; selectedHandle := None |}.

(** A square and a triangle are drawn; under the select tool the square is
    selected by its fill, its vertex 3 is pressed and released. *)
Definition selectVertexOfSquare : list Event :=
  [ Commit (pt 0 0); Commit (pt 100 0); Commit (pt 100 100);
    Commit (pt 0 100); Commit (pt 5 5);
    Commit (pt 200 0); Commit (pt 300 0); Commit (pt 300 100);
    Commit (pt 205 5);
    SetTool select; Press (pt 50 50); Release; Press (pt 0 100); Release ].

Definition squareAndTriangle : list Polygon :=
  [ {| points := [pt 0 0; pt 100 0; pt 100 100; pt 0 100];
       color := "#3498db" |};
    {| points := [pt 200 0; pt 300 0; pt 300 100]; color := "#e74c3c" |} ].

Definition vertexOfSquareSelected : State :=
  {| currentPoints := []; polygons := squareAndTriangle;
     selectedPolygon := Some 0%nat; isDragging := false; dragStart := None;
     activeTool := select; dragMode := move; selectedHandle := Some 3%nat |}.

(** The state left by a press at (280, 20), inside the triangle. *)
Definition triangleSelected : State :=
  {| currentPoints := []; polygons := squareAndTriangle;
     selectedPolygon := Some 1%nat; isDragging := true;
     dragStart := Some (pt 280 20);
     activeTool := select; dragMode := move; selectedHandle := Some 3%nat |}.

Definition twoPoints : list Point := [pt 0 0; pt 1 3].

(** [1 / 3] as JavaScript computes it. *)
Definition oneThird : float := (1 / 3)%float.

(** Two endpoints [2^-600] apart: the squared length underflows to zero. *)
Definition nearbyEnd : Point := pt 0x1p-600 0.

(* ===================================================================== *)
(** * Further notions: selection, palette and the redraw *)
(* ===================================================================== *)

(** Facts about tool, drag, selection and colours that every reachable
    state satisfies. *)
Record Settled (s : State) : Prop := mkSettled {
  settled_drawing : activeTool s <> pencil -> currentPoints s = [];
  settled_anchor : is_Some (dragStart s) -> isDragging s = true;
  settled_handle : is_Some (selectedHandle s) -> is_Some (selectedPolygon s);
  settled_resize :
    isDragging s = true -> dragMode s = resize -> activeTool s = select;
  settled_palette :
    forall k polygon, polygons s !! k = Some polygon ->
      color polygon = nth (k mod 8) colors ""%string
}.

(** The translation applied by [handleMove] to each point of a polygon. *)
Definition shift (dx dy : float) (p : Point) : Point :=
  {| x := (x p + dx)%float; y := (y p + dy)%float |}.

(** The crossing tests of [isPointInPolygon] along a list of points, each
    taken with the point before it; [prev] is the point before the first. *)
Fixpoint crossings (point prev : Point) (l : list Point) : bool :=
  match l with
  | [] => false
  | p :: rest => xorb (intersect point p prev) (crossings point p rest)
  end.

(** The test made by the edge-splitting loop on polygon [i]. *)
Definition hasEdgePoint (point : Point) (s : State) (i : nat) : bool :=
  match polygons s !! i with
  | Some polygon =>
      match findClosestEdgePoint point (points polygon) with
      | Some _ => true
      | None => false
      end
  | None => false
  end.

(** The state after a click that closes the shape. *)
Definition committed (s : State) : State :=
  setCurrentPoints []
    (setPolygons
       (polygons s ++
          [ {| points := currentPoints s;
               color := nth (length (polygons s) mod length colors) colors
                            ""%string |} ]) s).

(** The state after a click that splits an edge of polygon [i]. *)
Definition edgeInserted (i : nat) (polygon : Polygon) (edgePoint : EdgePoint)
    (s : State) : State :=
  setSelectedHandle (Some (ep_index edgePoint))
    (setSelectedPolygon (Some i)
      (setPolygons
         (<[i := withPoints polygon
                   (splice (ep_index edgePoint) (ep_point edgePoint)
                           (points polygon))]> (polygons s)) s)).

(** The test made by the fill scan on polygon [i]. *)
Definition containsAt (point : Point) (s : State) (i : nat) : bool :=
  match polygons s !! i with
  | Some polygon => isPointInPolygon point (points polygon)
  | None => false
  end.

(** The test made by the handle scan on vertex [i]. *)
Definition nearHandleAt (point : Point) (polygon : Polygon) (i : nat) : bool :=
  match points polygon !! i with
  | Some handlePoint => isPointNearHandle point handlePoint
  | None => false
  end.

(** Some polygon of the store contains the point. *)
Definition insideSomePolygon (point : Point) (s : State) : bool :=
  existsb (containsAt point s) (seq 0 (length (polygons s))).

(** Under the select tool, the point is within [HANDLE_SIZE] of some vertex
    of the selected polygon. *)
Definition nearSomeHandle (point : Point) (s : State) : bool :=
  match activeTool s, selectedPolygon s with
  | select, Some sp =>
      match polygons s !! sp with
      | Some polygon =>
          existsb (nearHandleAt point polygon)
                  (seq 0 (length (points polygon)))
      | None => false
      end
  | _, _ => false
  end.

(** A press at [point] hits nothing: the tool is not the pencil, the point
    is near no vertex of the selected polygon and inside no polygon. *)
Definition pressMisses (point : Point) (s : State) : bool :=
  negb (Tool_eqb (activeTool s) pencil)
  && negb (nearSomeHandle point s)
  && negb (insideSomePolygon point s).

(** The event sequences in which no press that hits nothing arrives during
    an active drag, followed from state [s]. *)
Fixpoint noMissDuringDrag (s : State) (es : list Event) : bool :=
  match es with
  | [] => true
  | e :: rest =>
      match e with
      | Press point => negb (isDragging s && pressMisses point s)
      | _ => true
      end
      && match step s e with
         | Some s' => noMissDuringDrag s' rest
         | None => true
         end
  end.

(** The triangle is drawn, the hand tool is chosen and two presses in a row
    land inside the triangle. *)
Definition pressTwiceInside : list Event :=
  drawTriangle
  ++ [ Commit (pt 5 5); SetTool hand; Press (pt 80 20); Press (pt 80 20) ].

(** The square and the triangle are drawn, the select tool is chosen, the
    square is selected by its fill and its vertex 3 is pressed. *)
Definition grabVertexOfSquare : list Event :=
  [ Commit (pt 0 0); Commit (pt 100 0); Commit (pt 100 100);
    Commit (pt 0 100); Commit (pt 5 5);
    Commit (pt 200 0); Commit (pt 300 0); Commit (pt 300 100);
    Commit (pt 205 5);
    SetTool select; Press (pt 50 50); Release; Press (pt 0 100) ].

Definition vertexGrabbed : State :=
  {| currentPoints := []; polygons := squareAndTriangle;
     selectedPolygon := Some 0%nat; isDragging := true;
     dragStart := Some (pt 0 100);
     activeTool := select; dragMode := resize; selectedHandle := Some 3%nat |}.

(** The triangle is drawn, the hand tool is chosen and a press lands inside
    the triangle. *)
Definition handDragging : State :=
  {| currentPoints := []; polygons := [triangle];
     selectedPolygon := Some 0%nat; isDragging := true;
     dragStart := Some (pt 80 20); activeTool := hand;
     dragMode := move; selectedHandle := None |}.

(** The triangle with a vertex inserted on its first edge. *)
Definition triangleSplit : Polygon :=
  {| points := [pt 0 0; pt 50 0; pt 100 0; pt 100 100]; color := "#3498db" |}.

(** The triangle under the hand tool, nothing selected. *)
Definition handIdle : State :=
  {| currentPoints := []; polygons := [triangle];
     selectedPolygon := None; isDragging := false; dragStart := None;
     activeTool := hand; dragMode := move; selectedHandle := None |}.

(** Position [k] holds in [after] a polygon of the colour it has in
    [before] and with at least as many points. *)
Definition keeps (before after : list Polygon) : Prop :=
  forall k polygon, before !! k = Some polygon ->
    exists polygon', after !! k = Some polygon'
                     /\ color polygon' = color polygon
                     /\ length (points polygon) <= length (points polygon').

(* ===================================================================== *)
(** * The redraw *)
(* ===================================================================== *)

(** The calls made on the 2D context, in order; an assignment to
    [fillStyle], [strokeStyle] or [lineWidth] counts as a call. *)
Inductive DrawCall : Set :=
| clearRect (cx cy w h : float)
| beginPath
| closePath
| moveTo (cx cy : float)
| lineTo (cx cy : float)
| arc (cx cy radius startAngle endAngle : float)
| rect (cx cy w h : float)
| fillStyle (v : string)
| strokeStyle (v : string)
| lineWidth (v : float)
| fill
| stroke.

(** [Math.PI] *)
Definition Math_PI : float := 0x1.921fb54442d18p+1%float.

(** [index === selected] for a [selected] that is a number or [null]. *)
Definition sameIndex (index : nat) (selected : option nat) : bool :=
  match selected with
  | Some k => (index =? k)%nat
  | None => false
  end.

(** [drawPolygon]; [None] when [points[0]] is [undefined]. *)
Definition drawPolygon (pts : list Point) (c : string) (isSelected : bool)
    : option (list DrawCall) :=
  match pts !! 0%nat with
  | None => None
  | Some p0 =>
      Some ([beginPath; moveTo (x p0) (y p0)]
            ++ map (fun p => lineTo (x p) (y p)) pts
            ++ [closePath;
                fillStyle (c ++ "80")%string;
                fill;
                strokeStyle (if isSelected then "#000"%string else c);
                lineWidth (if isSelected then 2%float else 1%float);
                stroke])
  end.

Definition drawHandle (point : Point) (isSelected : bool) : list DrawCall :=
  [ beginPath;
    rect (x point - HANDLE_SIZE / 2)%float (y point - HANDLE_SIZE / 2)%float
         HANDLE_SIZE HANDLE_SIZE;
    fillStyle (if isSelected then "#2563eb" else "#fff")%string;
    strokeStyle "#2563eb"%string;
    lineWidth 2%float;
    fill;
    stroke ].

(** [polygons.forEach((polygon, index) => drawPolygon(...))], from [index]
    on. *)
Fixpoint drawPolygonsFrom (index : nat) (ps : list Polygon)
    (selected : option nat) : option (list DrawCall) :=
  match ps with
  | [] => Some []
  | polygon :: rest =>
      match drawPolygon (points polygon) (color polygon)
                        (sameIndex index selected) with
      | None => None
      | Some calls =>
          match drawPolygonsFrom (S index) rest selected with
          | None => None
          | Some more => Some (calls ++ more)
          end
      end
  end.

(** [polygon.points.forEach((point, index) => drawHandle(...))], from
    [index] on. *)
Fixpoint drawHandlesFrom (index : nat) (pts : list Point)
    (selected : option nat) : list DrawCall :=
  match pts with
  | [] => []
  | point :: rest =>
      drawHandle point (sameIndex index selected)
      ++ drawHandlesFrom (S index) rest selected
  end.

(** The shape in progress: its outline, then a dot on each point. *)
Definition drawCurrentPoints (pts : list Point) : list DrawCall :=
  match pts with
  | [] => []
  | p0 :: _ =>
      [beginPath; moveTo (x p0) (y p0)]
      ++ map (fun p => lineTo (x p) (y p)) pts
      ++ [strokeStyle "#666"%string; stroke]
      ++ concat (map (fun p => [ beginPath;
                                 arc (x p) (y p) 4%float 0%float
                                     (Math_PI * 2)%float;
                                 fillStyle "#666"%string;
                                 fill ]) pts)
  end.

(** The handles of the selected polygon, drawn under the select tool only;
    [None] when [polygons[selectedPolygon]] is [undefined]. *)
Definition drawSelectedHandles (s : State) : option (list DrawCall) :=
  match selectedPolygon s with
  | Some sp =>
      if Tool_eqb (activeTool s) select then
        match polygons s !! sp with
        | None => None
        | Some polygon =>
            Some (drawHandlesFrom 0 (points polygon) (selectedHandle s))
        end
      else Some []
  | None => Some []
  end.

(** The effect run after each change of the state, on a canvas of 800 by
    600: the calls it makes, or [None] when it throws. *)
Definition render (s : State) : option (list DrawCall) :=
  match drawPolygonsFrom 0 (polygons s) (selectedPolygon s) with
  | None => None
  | Some shapes =>
      match drawSelectedHandles s with
      | None => None
      | Some handles =>
          Some (clearRect 0 0 800 600
                :: shapes ++ drawCurrentPoints (currentPoints s) ++ handles)
      end
  end.

Definition isRect (c : DrawCall) : bool :=
  match c with
  | rect _ _ _ _ => true
  | _ => false
  end.

(** The fill of a highlighted handle. *)
Definition isHighlight (c : DrawCall) : bool :=
  match c with
  | fillStyle v => String.eqb v "#2563eb"
  | _ => false
  end.

(** The outline of the selected polygon. *)
Definition isSelectedOutline (c : DrawCall) : bool :=
  match c with
  | strokeStyle v => String.eqb v "#000"
  | _ => false
  end.

Fixpoint countCalls (f : DrawCall -> bool) (calls : list DrawCall) : nat :=
  match calls with
  | [] => 0
  | c :: rest => (if f c then 1 else 0) + countCalls f rest
  end.

(** The number of handle boxes the state calls for: the vertices of the
    selected polygon under the select tool, none otherwise. *)
Definition handlesShown (s : State) : nat :=
  match selectedPolygon s with
  | Some sp =>
      if Tool_eqb (activeTool s) select then
        match polygons s !! sp with
        | Some polygon => length (points polygon)
        | None => 0
        end
      else 0
  | None => 0
  end.

(** Whether the selected vertex index falls on one of the handles shown. *)
Definition handleHighlighted (s : State) : bool :=
  match selectedHandle s with
  | Some h => (h <? handlesShown s)%nat
  | None => false
  end.

(** The vertices on the canvas: those of the committed polygons and those
    of the shape in progress. *)
Definition vertexCount (s : State) : nat :=
  sum_list_with (fun polygon => length (points polygon)) (polygons s)
  + length (currentPoints s).

(** The clicks of an event sequence. *)
Fixpoint clicks (es : list Event) : nat :=
  match es with
  | [] => 0
  | Commit _ :: rest => S (clicks rest)
  | _ :: rest => clicks rest
  end.

(* ===================================================================== *)
(** * Ordering facts about binary64 comparisons *)
(* ===================================================================== *)

Module FloatOrder.

(** [a < b] and [b <= c] give [a < c]; stated on the specification floats
    where [SFcompare] is defined by cases. *)
Lemma SFcompare_lt_ge_trans (a b c : spec_float) :
  SFcompare a b = Some Lt ->
  SFcompare c b = Some Gt \/ SFcompare c b = Some Eq ->
  SFcompare a c = Some Lt.
Proof.
  destruct a as [sa|sa| |sa ma ea], b as [sb|sb| |sb mb eb],
           c as [sc|sc| |sc mc ec];
    simpl; try destruct sa; try destruct sb; try destruct sc; simpl;
    intros H [H'|H']; try discriminate; try reflexivity.
  all: injection H as H; injection H' as H'.
  all: destruct (Z.compare_spec ea eb), (Z.compare_spec ec eb),
                (Z.compare_spec ea ec);
       try discriminate; try lia; subst.
  all: f_equal.
  all: rewrite ?Pos.compare_cont_spec in *; simpl in *.
  all: destruct (Pos.compare_spec ma mb), (Pos.compare_spec mc mb),
                (Pos.compare_spec ma mc);
       simpl in *; try discriminate; try lia; try reflexivity.
Qed.

Lemma SFcompare_antisym (a b : spec_float) :
  SFcompare a b = Some Lt -> SFcompare b a = Some Gt.
Proof.
  destruct a as [sa|sa| |sa ma ea], b as [sb|sb| |sb mb eb];
    simpl; try destruct sa; try destruct sb; simpl;
    intros H; try discriminate; try reflexivity.
  all: injection H as H; f_equal.
  all: rewrite (Z.compare_antisym ea eb); destruct (Z.compare_spec ea eb);
       simpl; try discriminate; try reflexivity.
  all: rewrite Pos.compare_cont_spec in *; simpl in *.
  all: rewrite (Pos.compare_antisym ma mb); destruct (Pos.compare_spec ma mb);
       simpl in *; try discriminate; try reflexivity.
Qed.

(** Two values that each take part in a successful comparison are not
    NaNs, so they compare with one another. *)
Lemma SFcompare_total (a b u v : spec_float) :
  SFcompare a u = Some Lt -> SFcompare v b = Some Lt ->
  exists c, SFcompare a b = Some c.
Proof.
  destruct a as [sa|sa| |sa ma ea], b as [sb|sb| |sb mb eb];
    destruct u, v; simpl; intros Ha Hb; try discriminate; eauto.
Qed.

Local Open Scope float_scope.

Lemma ltb_Some_Lt (a b : float) :
  (a <? b) = true <-> SFcompare (Prim2SF a) (Prim2SF b) = Some Lt.
Proof.
  rewrite ltb_spec. unfold SFltb.
  destruct (SFcompare (Prim2SF a) (Prim2SF b)) as [[]|]; split; congruence.
Qed.

(** Strict order: no value is below itself, and [<] is asymmetric. *)
Lemma ltb_asym (a b : float) : (a <? b) = true -> (b <? a) = false.
Proof.
  intros H. apply ltb_Some_Lt, SFcompare_antisym in H.
  rewrite ltb_spec. unfold SFltb. now rewrite H.
Qed.

(** The step used when a scan replaces its running minimum: the new value
    [a] is below the old minimum [b], an earlier value [c] (itself below
    some bound, hence a number) was not below [b]; then [a] is below [c]. *)
Lemma ltb_below_earlier (a b c bound : float) :
  (a <? b) = true -> (c <? b) = false -> (c <? bound) = true ->
  (a <? c) = true.
Proof.
  intros Hab Hcb Hc.
  apply ltb_Some_Lt in Hab. apply ltb_Some_Lt in Hc.
  apply ltb_Some_Lt.
  apply SFcompare_lt_ge_trans with (b := Prim2SF b); [assumption|].
  destruct (SFcompare_total _ _ _ _ Hc Hab) as [[] Hcmp]; auto.
  rewrite ltb_spec in Hcb. unfold SFltb in Hcb. now rewrite Hcmp in Hcb.
Qed.

(** Whatever is below some value is below [infinity]. *)
Lemma ltb_infinity (a b : float) : (a <? b) = true -> (a <? infinity) = true.
Proof.
  intros H. apply ltb_Some_Lt in H. apply ltb_Some_Lt.
  change (Prim2SF infinity) with (S754_infinity false).
  destruct (Prim2SF a) as [sa|sa| |sa ma ea], (Prim2SF b) as [sb|sb| |sb mb eb];
    simpl in *; try destruct sa; try destruct sb; try discriminate;
    reflexivity.
Qed.

End FloatOrder.

(* ===================================================================== *)
(** * Arithmetic on zeros *)
(* ===================================================================== *)

Module FloatZero.
Local Open Scope float_scope.

Definition isZero (v : spec_float) : Prop := exists s, v = S754_zero s.

(** The difference of two equal finite numbers is a zero. *)
Lemma sub_equal_finite (a b : float) :
  is_finite a = true -> (a =? b) = true -> isZero (Prim2SF (b - a)).
Proof.
  unfold is_finite, is_nan, is_infinity. intros Hfin Heq.
  apply negb_true_iff, orb_false_iff in Hfin as [_ Hinf].
  rewrite FloatAxioms.eqb_spec, FloatAxioms.abs_spec in Hinf.
  rewrite FloatAxioms.eqb_spec in Heq.
  rewrite FloatAxioms.sub_spec. unfold SF64sub.
  change (Prim2SF infinity) with (S754_infinity false) in Hinf.
  unfold SFeqb in *.
  destruct (Prim2SF a) as [sa|sa| |sa ma ea], (Prim2SF b) as [sb|sb| |sb mb eb];
    simpl in *; try discriminate;
    try (destruct sa, sb; discriminate);
    try (destruct sa; discriminate); try (destruct sb; discriminate).
  - destruct sb, sa; eexists; reflexivity.
  - assert (Hsame : sa = sb /\ ea = eb /\ ma = mb).
    { destruct sa, sb; try discriminate;
        destruct (Z.compare_spec ea eb); try discriminate;
        rewrite Pos.compare_cont_spec in Heq; simpl in Heq;
        destruct (Pos.compare_spec ma mb); try discriminate; auto. }
    destruct Hsame as (-> & -> & ->).
    rewrite Z.min_id, Z.sub_diag. eexists; reflexivity.
Qed.

Lemma mul_zero (u v : float) :
  isZero (Prim2SF u) -> isZero (Prim2SF v) -> isZero (Prim2SF (u * v)).
Proof.
  intros [su Hu] [sv Hv]. rewrite FloatAxioms.mul_spec, Hu, Hv. eexists; reflexivity.
Qed.

Lemma add_zero (u v : float) :
  isZero (Prim2SF u) -> isZero (Prim2SF v) -> isZero (Prim2SF (u + v)).
Proof.
  intros [su Hu] [sv Hv]. rewrite FloatAxioms.add_spec, Hu, Hv.
  destruct su, sv; eexists; reflexivity.
Qed.

Lemma sqrt_zero (u : float) : isZero (Prim2SF u) -> isZero (Prim2SF (sqrt u)).
Proof. intros [su Hu]. rewrite FloatAxioms.sqrt_spec, Hu. eexists; reflexivity. Qed.

Lemma zero_eqb (u : float) : isZero (Prim2SF u) -> (u =? 0) = true.
Proof.
  intros [su Hu]. rewrite FloatAxioms.eqb_spec, Hu.
  change (Prim2SF 0) with (S754_zero false). reflexivity.
Qed.

End FloatZero.

(* ===================================================================== *)
(** * Invariants of the reachable states *)
(* ===================================================================== *)

Lemma shape_length (ps : list Polygon) : length (shape ps) = length ps.
Proof. apply length_fmap. Qed.

Lemma shape_insert (ps : list Polygon) (i : nat) (polygon : Polygon) :
  shape (<[i := polygon]> ps) = <[i := length (points polygon)]> (shape ps).
Proof.
  exact (list_fmap_insert (fun q => length (points q)) ps i polygon).
Qed.

Lemma shape_lookup (ps : list Polygon) (i : nat) (polygon : Polygon) :
  ps !! i = Some polygon -> shape ps !! i = Some (length (points polygon)).
Proof. intros H. unfold shape. rewrite list_lookup_fmap, H. reflexivity. Qed.

(** Replacing the points of a polygon by as many points keeps the shape. *)
Lemma shape_insert_same (ps : list Polygon) (i : nat) (polygon : Polygon)
    (updatedPoints : list Point) :
  ps !! i = Some polygon ->
  length updatedPoints = length (points polygon) ->
  shape (<[i := withPoints polygon updatedPoints]> ps) = shape ps.
Proof.
  intros Hi Hlen. rewrite shape_insert. simpl. rewrite Hlen.
  apply list_insert_id, shape_lookup, Hi.
Qed.

Lemma splice_length {A : Type} (start : nat) (item : A) (l : list A) :
  length (splice start item l) = S (length l).
Proof.
  unfold splice. rewrite length_app. simpl.
  rewrite length_take, length_drop. lia.
Qed.

Lemma findFirst_Some (idx : list nat) (test : nat -> bool) (i : nat) :
  findFirst idx test = Some i -> In i idx /\ test i = true.
Proof.
  induction idx as [|j rest IH]; simpl; [discriminate|].
  destruct (test j) eqn:Hj.
  - intros [= ->]. auto.
  - intros H. destruct (IH H). auto.
Qed.

Lemma findFirst_None (idx : list nat) (test : nat -> bool) :
  findFirst idx test = None -> forall i, In i idx -> test i = false.
Proof.
  induction idx as [|j rest IH]; simpl; [tauto|].
  destruct (test j) eqn:Hj; [discriminate|].
  intros H i [<-|Hi]; auto.
Qed.

(** What the edge-splitting loop leaves when it finds an edge. *)
Lemma edgeSplit_Some (point : Point) (s s' : State) (idx : list nat) :
  edgeSplit point s idx = Some s' ->
  exists i polygon edgePoint,
    In i idx
    /\ polygons s !! i = Some polygon
    /\ findClosestEdgePoint point (points polygon) = Some edgePoint
    /\ s' = setSelectedHandle (Some (ep_index edgePoint))
              (setSelectedPolygon (Some i)
                (setPolygons
                   (<[i := withPoints polygon
                             (splice (ep_index edgePoint) (ep_point edgePoint)
                                     (points polygon))]> (polygons s)) s)).
Proof.
  induction idx as [|i rest IH]; simpl; [discriminate|].
  destruct (polygons s !! i) as [polygon|] eqn:Hi.
  - destruct (findClosestEdgePoint point (points polygon)) as [ep|] eqn:Hep.
    + intros [= <-]. exists i, polygon, ep. auto.
    + intros H. destruct (IH H) as (j & q & e & Hj & ?). exists j, q, e. auto.
  - intros H. destruct (IH H) as (j & q & e & Hj & ?). exists j, q, e. auto.
Qed.

Lemma Inv_init : Inv init.
Proof.
  split; simpl; try discriminate; auto.
Qed.

Lemma handlePencilInteraction_isDragging (point : Point) (s : State) :
  isDragging (handlePencilInteraction point s) = isDragging s
  /\ activeTool (handlePencilInteraction point s) = activeTool s.
Proof.
  unfold handlePencilInteraction.
  destruct (closesShape point s); [split; reflexivity|].
  destruct (length (currentPoints s) =? 0)%nat; [|split; reflexivity].
  destruct (edgeSplit _ _ _) as [s'|] eqn:H; [|split; reflexivity].
  apply edgeSplit_Some in H as (i & q & e & _ & _ & _ & ->). split; reflexivity.
Qed.

Lemma handlePencilInteraction_Inv (point : Point) (s : State) :
  isDragging s = false -> Inv s -> Inv (handlePencilInteraction point s).
Proof.
  intros Hidle HI.
  destruct (handlePencilInteraction_isDragging point s) as [Hd Ht].
  assert (Hvac : isDragging (handlePencilInteraction point s) = true -> False)
    by (rewrite Hd, Hidle; discriminate).
  split; try (intros; exfalso; auto; fail); [| |intros; congruence].
  - (* three points or more *)
    unfold handlePencilInteraction.
    destruct (closesShape point s) eqn:Hc.
    + simpl. unfold shape. rewrite fmap_app. apply Forall_app. split.
      * apply (inv_points _ HI).
      * repeat constructor. simpl.
        unfold closesShape in Hc. apply andb_true_iff in Hc as [Hc _].
        apply Nat.ltb_lt in Hc. lia.
    + destruct (length (currentPoints s) =? 0)%nat;
        [|apply (inv_points _ HI)].
      destruct (edgeSplit _ _ _) as [s'|] eqn:H; [|apply (inv_points _ HI)].
      apply edgeSplit_Some in H as (i & q & e & _ & Hi & _ & ->). simpl.
      rewrite shape_insert. apply Forall_insert; [apply (inv_points _ HI)|].
      simpl. rewrite splice_length.
      pose proof (inv_points _ HI) as HF.
      rewrite Forall_lookup in HF. specialize (HF _ _ (shape_lookup _ _ _ Hi)).
      lia.
  - (* the selected polygon exists *)
    unfold handlePencilInteraction.
    destruct (closesShape point s) eqn:Hc.
    + simpl. intros k Hk. rewrite length_app. simpl.
      pose proof (inv_selected _ HI k Hk). lia.
    + destruct (length (currentPoints s) =? 0)%nat;
        [|apply (inv_selected _ HI)].
      destruct (edgeSplit _ _ _) as [s'|] eqn:H; [|apply (inv_selected _ HI)].
      apply edgeSplit_Some in H as (i & q & e & _ & Hi & _ & ->). simpl.
      intros k [= <-]. rewrite length_insert. eapply lookup_lt_Some, Hi.
Qed.

Lemma selectByFill_Inv (point : Point) (s : State) :
  activeTool s <> pencil -> Inv s -> Inv (selectByFill point s).
Proof.
  intros Htool HI. unfold selectByFill.
  destruct (findFirst _ _) as [i|] eqn:Hf.
  - apply findFirst_Some in Hf as [_ Hi].
    destruct (polygons s !! i) as [polygon|] eqn:Hp; [|discriminate].
    split; simpl; eauto using inv_points; try congruence.
    intros k [= <-]. eapply lookup_lt_Some, Hp.
  - split; simpl; eauto using inv_points, inv_pencil, inv_anchor;
      try discriminate.
Qed.

Lemma Tool_eqb_eq (a b : Tool) : Tool_eqb a b = true <-> a = b.
Proof. destruct a, b; simpl; split; congruence. Qed.

Lemma handleStart_Inv (point : Point) (s s' : State) :
  Inv s -> handleStart point s = Some s' -> Inv s'.
Proof.
  intros HI. unfold handleStart.
  destruct (Tool_eqb (activeTool s) pencil) eqn:Hpencil; [congruence|].
  assert (Htool : activeTool s <> pencil).
  { intros E. apply Tool_eqb_eq in E. congruence. }
  destruct (if Tool_eqb (activeTool s) select then selectedPolygon s else None)
    as [sp|] eqn:Hsel.
  2: { intros [= <-]. now apply selectByFill_Inv. }
  assert (Hsp : selectedPolygon s = Some sp)
    by (destruct (Tool_eqb (activeTool s) select); congruence).
  destruct (polygons s !! sp) as [polygon|] eqn:Hp; [|discriminate].
  destruct (findFirst _ _) as [i|] eqn:Hf.
  2: { intros [= <-]. now apply selectByFill_Inv. }
  intros [= <-].
  apply findFirst_Some in Hf as [_ Hi].
  destruct (points polygon !! i) as [handlePoint|] eqn:Hh; [|discriminate].
  split; simpl; eauto using inv_points, inv_selected; try congruence.
  intros _ _ k h Hk [= <-]. rewrite Hsp in Hk. injection Hk as <-.
  exists (length (points polygon)). split.
  - now apply shape_lookup.
  - eapply lookup_lt_Some, Hh.
Qed.

Lemma movedPolygons_shape (dx dy : float) (sp : nat) (s : State)
    (updatedPolygons : list Polygon) :
  movedPolygons dx dy sp s = Some updatedPolygons ->
  shape updatedPolygons = shape (polygons s).
Proof.
  unfold movedPolygons.
  assert (Hmove :
    (if DragMode_eqb (dragMode s) move
     then match polygons s !! sp with
          | Some polygon =>
              Some (<[sp := withPoints polygon
                       (map (fun p => {| x := (x p + dx)%float;
                                         y := (y p + dy)%float |})
                            (points polygon))]> (polygons s))
          | None => None
          end
     else Some (polygons s)) = Some updatedPolygons ->
    shape updatedPolygons = shape (polygons s)).
  { destruct (DragMode_eqb (dragMode s) move); [|congruence].
    destruct (polygons s !! sp) as [polygon|] eqn:Hp; [|discriminate].
    intros [= <-]. apply shape_insert_same; [assumption|apply length_map]. }
  destruct (DragMode_eqb (dragMode s) resize); [|exact Hmove].
  destruct (selectedHandle s) as [sh|]; [|exact Hmove].
  destruct (polygons s !! sp) as [polygon|] eqn:Hp; [|discriminate].
  destruct (points polygon !! sh) as [old|]; [|discriminate].
  intros [= <-]. apply shape_insert_same; [assumption|apply length_insert].
Qed.

Lemma handleMove_Inv (point : Point) (s s' : State) :
  Inv s -> handleMove point s = Some s' -> Inv s'.
Proof.
  intros HI. unfold handleMove.
  destruct (negb (isDragging s)); [congruence|].
  destruct (selectedPolygon s) as [sp|] eqn:Hsp; [|congruence].
  destruct (dragStart s) as [ds|] eqn:Hds; [|congruence].
  destruct (movedPolygons _ _ _ _) as [ups|] eqn:Hm; [|discriminate].
  intros [= <-]. apply movedPolygons_shape in Hm.
  pose proof (f_equal length Hm) as Hlen. rewrite !shape_length in Hlen.
  split; simpl; rewrite ?Hm, ?Hlen; eauto.
  - apply (inv_points _ HI).
  - apply (inv_selected _ HI).
  - apply (inv_pencil _ HI).
  - apply (inv_resize _ HI).
Qed.

Lemma handleEnd_Inv (s : State) : Inv s -> Inv (handleEnd s).
Proof.
  intros HI. unfold handleEnd.
  destruct (negb (isDragging s)); split; simpl;
    eauto using inv_points, inv_selected; discriminate.
Qed.

Lemma handleInteraction_Inv (point : Point) (s : State) :
  Inv s -> Inv (handleInteraction point s).
Proof.
  intros HI. unfold handleInteraction.
  destruct (isDragging s) eqn:Hd; [assumption|].
  destruct (Tool_eqb (activeTool s) pencil); [|assumption].
  now apply handlePencilInteraction_Inv.
Qed.

Lemma handleToolChange_Inv (tool : Tool) (s : State) :
  Inv s -> Inv (handleToolChange tool s).
Proof.
  intros HI. destruct tool; split; simpl;
    eauto using inv_points, inv_selected; discriminate.
Qed.

Lemma step_Inv (s s' : State) (e : Event) :
  Inv s -> step s e = Some s' -> Inv s'.
Proof.
  intros HI. destruct e as [point|point| |point|tool]; simpl.
  - now apply handleStart_Inv.
  - now apply handleMove_Inv.
  - intros [= <-]. now apply handleEnd_Inv.
  - intros [= <-]. now apply handleInteraction_Inv.
  - intros [= <-]. now apply handleToolChange_Inv.
Qed.

Lemma run_Inv (es : list Event) (s s' : State) :
  Inv s -> run s es = Some s' -> Inv s'.
Proof.
  revert s. induction es as [|e rest IH]; simpl; intros s HI.
  - now intros [= <-].
  - destruct (step s e) as [s1|] eqn:Hs; [|discriminate].
    apply IH. eapply step_Inv; eassumption.
Qed.

Lemma reachable_Inv (s : State) : reachable s -> Inv s.
Proof. intros [es Hes]. eapply run_Inv; [apply Inv_init|exact Hes]. Qed.

(** No handler throws in a state that satisfies the invariant: the reads
    [polygons[selectedPolygon]] and [updatedPoints[selectedHandle]] find
    their element. *)
Lemma step_total (s : State) (e : Event) : Inv s -> is_Some (step s e).
Proof.
  intros HI. destruct e as [point|point| |point|tool]; simpl; eauto.
  - unfold handleStart.
    destruct (Tool_eqb (activeTool s) pencil); eauto.
    destruct (Tool_eqb (activeTool s) select); eauto.
    destruct (selectedPolygon s) as [sp|] eqn:Hsp; eauto.
    destruct (lookup_lt_is_Some_2 _ _ (inv_selected _ HI sp Hsp))
      as [polygon ->].
    destruct (findFirst _ _); eauto.
  - unfold handleMove.
    destruct (isDragging s) eqn:Hd; simpl; eauto.
    destruct (selectedPolygon s) as [sp|] eqn:Hsp; eauto.
    destruct (dragStart s) as [ds|]; eauto.
    destruct (lookup_lt_is_Some_2 _ _ (inv_selected _ HI sp Hsp))
      as [polygon Hp].
    unfold movedPolygons. rewrite Hp.
    destruct (dragMode s) eqn:Hdm; simpl.
    + destruct (selectedHandle s); eauto.
    + destruct (selectedHandle s) as [sh|] eqn:Hsh; eauto.
      destruct (inv_resize _ HI Hd Hdm sp sh Hsp Hsh) as (n & Hn & Hlt).
      rewrite (shape_lookup _ _ _ Hp) in Hn. injection Hn as <-.
      destruct (lookup_lt_is_Some_2 _ _ Hlt) as [old ->]. eauto.
Qed.

(** Every event sequence runs to completion from the initial state. *)
Lemma run_total (es : list Event) : exists s, run init es = Some s.
Proof.
  assert (H : forall s, Inv s -> exists s', run s es = Some s').
  { induction es as [|e rest IH]; simpl; intros s HI; [eauto|].
    destruct (step_total s e HI) as [s1 Hs]. rewrite Hs.
    apply IH. eapply step_Inv; eassumption. }
  apply H, Inv_init.
Qed.

(* ===================================================================== *)
(** * Release, tool switch and the move without a handle *)
(* ===================================================================== *)

(** C6.  A release or cancel always succeeds and leaves the drag idle with
    no anchor.  The selected vertex is cleared when no drag was active as
    the release arrived, and is left as it was when a drag was active.
    Nothing else of the drawing or the selection changes. *)
Theorem release_ends_drag (s : State) :
  step s Release = Some (handleEnd s)
  /\ isDragging (handleEnd s) = false
  /\ dragStart (handleEnd s) = None
  /\ (isDragging s = false -> selectedHandle (handleEnd s) = None)
  /\ (isDragging s = true -> selectedHandle (handleEnd s) = selectedHandle s)
  /\ selectedPolygon (handleEnd s) = selectedPolygon s
  /\ polygons (handleEnd s) = polygons s
  /\ currentPoints (handleEnd s) = currentPoints s
  /\ activeTool (handleEnd s) = activeTool s.
Proof.
  unfold handleEnd. destruct s as [cp ps sp [|] ds tool dm sh]; simpl;
    repeat split; intros; congruence.
Qed.

(** C7.  Switching to the pencil clears the selected polygon and the
    selected vertex; switching to the hand or to the select tool empties the
    sequence being drawn; every switch makes the drag idle and clears the
    anchor.  Hence switching to select in the middle of a drawing empties
    the sequence, and it is still empty after switching back to the pencil. *)
Theorem tool_switch_clears (s : State) :
  (selectedPolygon (handleToolChange pencil s) = None
   /\ selectedHandle (handleToolChange pencil s) = None)
  /\ currentPoints (handleToolChange hand s) = []
  /\ currentPoints (handleToolChange select s) = []
  /\ (forall tool : Tool,
        step s (SetTool tool) = Some (handleToolChange tool s)
        /\ activeTool (handleToolChange tool s) = tool
        /\ isDragging (handleToolChange tool s) = false
        /\ dragStart (handleToolChange tool s) = None)
  /\ (exists s' : State,
        run s [SetTool select; SetTool pencil] = Some s'
        /\ activeTool s' = pencil /\ currentPoints s' = []).
Proof.
  repeat split; try (destruct tool; reflexivity).
  eexists. repeat split.
Qed.

(** C10.  In a state with an active drag, a selected polygon, an anchor and
    the resize mode but no selected vertex, a move event changes nothing
    but the anchor, which becomes the point of the event: every polygon
    keeps its points and its colour. *)
Theorem move_resize_without_handle
    (s : State) (point anchor : Point) (sp : nat) :
  isDragging s = true ->
  selectedPolygon s = Some sp ->
  dragStart s = Some anchor ->
  dragMode s = resize ->
  selectedHandle s = None ->
  exists s' : State,
    step s (Move point) = Some s'
    /\ polygons s' = polygons s
    /\ dragStart s' = Some point
    /\ s' = setDragStart (Some point) s.
Proof.
  intros Hd Hsp Hds Hdm Hsh.
  exists (setDragStart (Some point) s).
  destruct s as [cp ps sp' dr ds tool dm sh]; simpl in *; subst.
  unfold handleMove, movedPolygons; simpl. repeat split.
Qed.

Lemma move_resize_without_handle_witness :
  isDragging resizeWithoutHandle = true
  /\ dragMode resizeWithoutHandle = resize
  /\ selectedHandle resizeWithoutHandle = None
  /\ exists s' : State,
       step resizeWithoutHandle (Move (pt 40 50)) = Some s'
       /\ polygons s' = polygons resizeWithoutHandle
       /\ dragStart s' = Some (pt 40 50)
       /\ s' = setDragStart (Some (pt 40 50)) resizeWithoutHandle.
Proof.
  repeat (split; [reflexivity|]).
  apply (move_resize_without_handle resizeWithoutHandle (pt 40 50) (pt 10 10) 0);
    reflexivity.
Defined.

(* ===================================================================== *)
(** * The committed polygons *)
(* ===================================================================== *)

Lemma selectByFill_polygons (point : Point) (s : State) :
  polygons (selectByFill point s) = polygons s.
Proof. unfold selectByFill. destruct (findFirst _ _); reflexivity. Qed.

Lemma handleStart_polygons (point : Point) (s s' : State) :
  handleStart point s = Some s' -> polygons s' = polygons s.
Proof.
  unfold handleStart.
  destruct (Tool_eqb (activeTool s) pencil); [congruence|].
  destruct (if Tool_eqb (activeTool s) select then selectedPolygon s else None)
    as [sp|]; [|intros [= <-]; apply selectByFill_polygons].
  destruct (polygons s !! sp); [|discriminate].
  destruct (findFirst _ _); intros [= <-];
    [reflexivity|apply selectByFill_polygons].
Qed.

Lemma step_shapeChange (s s' : State) (e : Event) :
  step s e = Some s' ->
  shapeChange (shape (polygons s)) (shape (polygons s')).
Proof.
  destruct e as [point|point| |point|tool]; simpl.
  - intros H. left. now rewrite (handleStart_polygons _ _ _ H).
  - unfold handleMove. destruct (negb (isDragging s)); [left; congruence|].
    destruct (selectedPolygon s) as [sp|]; [|left; congruence].
    destruct (dragStart s) as [ds|]; [|left; congruence].
    destruct (movedPolygons _ _ _ _) as [ups|] eqn:Hm; [|discriminate].
    intros [= <-]. left. simpl. now apply movedPolygons_shape in Hm.
  - intros [= <-]. left. unfold handleEnd.
    destruct (negb (isDragging s)); reflexivity.
  - intros [= <-]. unfold handleInteraction.
    destruct (isDragging s); [now left|].
    destruct (Tool_eqb (activeTool s) pencil); [|now left].
    unfold handlePencilInteraction.
    destruct (closesShape point s) eqn:Hc.
    + right; left. exists (length (currentPoints s)). split.
      * unfold closesShape in Hc. apply andb_true_iff in Hc as [Hc _].
        now apply Nat.ltb_lt in Hc.
      * simpl. unfold shape. now rewrite fmap_app.
    + destruct (length (currentPoints s) =? 0)%nat; [|now left].
      destruct (edgeSplit _ _ _) as [s1|] eqn:H; [|now left].
      apply edgeSplit_Some in H as (i & q & ep & _ & Hi & _ & ->).
      right; right. exists i, (length (points q)). split.
      * now apply shape_lookup.
      * simpl. rewrite shape_insert. simpl. now rewrite splice_length.
  - intros [= <-]. left. destruct tool; reflexivity.
Qed.

(** C9.  In every reachable state each committed polygon has at least three
    points; and an event leaves the point counts as they are (a press, a
    release, a tool switch, a translation, a vertex move), or adds one
    polygon of more than two points (a commit), or adds one point to one
    polygon (an edge insertion). *)
Theorem committed_polygons_have_three_points (s : State) :
  reachable s ->
  Forall (fun polygon => 3 <= length (points polygon)) (polygons s)
  /\ forall e s', step s e = Some s' ->
       shapeChange (shape (polygons s)) (shape (polygons s')).
Proof.
  intros Hr. split.
  - pose proof (inv_points _ (reachable_Inv _ Hr)) as H.
    unfold shape in H. now rewrite Forall_fmap in H.
  - intros e s'. apply step_shapeChange.
Qed.

Lemma committed_polygons_have_three_points_witness :
  reachable afterTriangle
  /\ Forall (fun polygon => 3 <= length (points polygon))
            (polygons afterTriangle)
  /\ forall e s', step afterTriangle e = Some s' ->
       shapeChange (shape (polygons afterTriangle)) (shape (polygons s')).
Proof.
  assert (H : reachable afterTriangle)
    by (exists (drawTriangle ++ [Commit (pt 5 5)]); reflexivity).
  split; [exact H|].
  exact (committed_polygons_have_three_points afterTriangle H).
Defined.

(* ===================================================================== *)
(** * The click that closes a shape *)
(* ===================================================================== *)

(** C2.  Under the pencil, a click that arrives while more than two points
    are being drawn and whose distance to the first of them is below 20
    appends to the store a polygon with exactly the points being drawn (the
    click is not among them) and the colour [colors[n mod 8]], [n] being
    the number of polygons before, and empties the sequence being drawn;
    nothing else changes.  From the initial state, clicks at (0,0), (100,0),
    (100,100) and (5,5) leave one polygon with the first three points and an
    empty sequence. *)
Theorem pencil_click_closes_shape :
  (forall (s : State) (point startPoint : Point),
     reachable s ->
     activeTool s = pencil ->
     2 < length (currentPoints s) ->
     currentPoints s !! 0 = Some startPoint ->
     (distance startPoint point <? CLOSE_THRESHOLD)%float = true ->
     step s (Commit point)
     = Some (setCurrentPoints []
              (setPolygons
                 (polygons s ++
                    [ {| points := currentPoints s;
                         color := nth (length (polygons s) mod 8) colors
                                      ""%string |} ]) s)))
  /\ run init (drawTriangle ++ [Commit (pt 5 5)]) = Some afterTriangle.
Proof.
  split; [|reflexivity].
  intros s point startPoint Hr Htool Hlen Hstart Hdist. simpl.
  unfold handleInteraction.
  rewrite (inv_pencil _ (reachable_Inv _ Hr) Htool), Htool. simpl.
  unfold handlePencilInteraction, closesShape.
  rewrite Hstart, Hdist. apply Nat.ltb_lt in Hlen. rewrite Hlen. reflexivity.
Qed.

Lemma pencil_click_closes_shape_witness :
  reachable afterThreeClicks
  /\ 2 < length (currentPoints afterThreeClicks)
  /\ (distance (pt 0 0) (pt 5 5) <? CLOSE_THRESHOLD)%float = true
  /\ step afterThreeClicks (Commit (pt 5 5)) = Some afterTriangle.
Proof.
  assert (H : reachable afterThreeClicks) by (exists drawTriangle; reflexivity).
  split; [exact H|]. split; [simpl; lia|]. split; [reflexivity|].
  exact (proj1 pencil_click_closes_shape afterThreeClicks (pt 5 5) (pt 0 0)
           H eq_refl (le_n 3) eq_refl eq_refl).
Defined.

(* ===================================================================== *)
(** * Drag and selection *)
(* ===================================================================== *)

(** C5, as stated, fails: two presses in a row, the second one outside
    every polygon, leave the drag active and no polygon selected. *)
Lemma drag_without_selection_reachable :
  run init pressTwice = Some dragWithoutSelection
  /\ isDragging dragWithoutSelection = true
  /\ selectedPolygon dragWithoutSelection = None
  /\ ~ (forall s : State,
          reachable s -> isDragging s = true -> is_Some (selectedPolygon s)).
Proof.
  assert (H : run init pressTwice = Some dragWithoutSelection)
    by (vm_compute; reflexivity).
  repeat split; try assumption.
  intros Hall.
  destruct (Hall dragWithoutSelection (ex_intro _ pressTwice H) eq_refl)
    as [k Hk].
  discriminate Hk.
Qed.

(** C1, the failing run.  After [selectVertexOfSquare] polygon 0 (four
    points) is selected with its vertex 3; a press inside polygon 1 (three
    points) selects polygon 1 and leaves the selected vertex at 3, which is
    not an index into the points of polygon 1. *)
Theorem stale_vertex_after_fill_select :
  run init selectVertexOfSquare = Some vertexOfSquareSelected
  /\ step vertexOfSquareSelected (Press (pt 280 20)) = Some triangleSelected
  /\ selectedPolygon triangleSelected = Some 1
  /\ selectedHandle triangleSelected = Some 3
  /\ exists polygon : Polygon,
       polygons triangleSelected !! 1 = Some polygon
       /\ length (points polygon) = 3
       /\ points polygon !! 3 = None.
Proof.
  split; [vm_compute; reflexivity|].
  split; [vm_compute; reflexivity|].
  do 2 (split; [reflexivity|]).
  eexists. split; [reflexivity|]. split; reflexivity.
Qed.

(* ===================================================================== *)
(** * Point in polygon *)
(* ===================================================================== *)

Lemma crossing_fold (point : Point) (polygonPoints : list Point)
    (m a : nat) (inside : bool) :
  fold_left (crossingStep point polygonPoints) (seq a m)
            (inside, wrapPrev (length polygonPoints) a)
  = (xorb inside
       (Nat.odd (length (filter (fun i => crossesAt point polygonPoints i = true)
                                (seq a m)))),
     wrapPrev (length polygonPoints) (a + m)).
Proof.
  revert a inside. induction m as [|m IH]; intros a inside.
  - simpl. now rewrite xorb_false_r, Nat.add_0_r.
  - rewrite <- cons_seq. cbn [fold_left].
    assert (Hstep : crossingStep point polygonPoints
                      (inside, wrapPrev (length polygonPoints) a) a
                    = (xorb inside (crossesAt point polygonPoints a),
                       wrapPrev (length polygonPoints) (S a))).
    { unfold crossingStep, crossesAt. simpl.
      destruct (polygonPoints !! a);
        [|now rewrite xorb_false_r].
      destruct (polygonPoints !! wrapPrev (length polygonPoints) a);
        [|now rewrite xorb_false_r].
      destruct (intersect _ _ _), inside; reflexivity. }
    rewrite Hstep, IH. rewrite filter_cons.
    replace (a + S m) with (S a + m) by lia. f_equal.
    destruct (crossesAt point polygonPoints a) eqn:Hc.
    + rewrite decide_True by reflexivity. simpl length.
      rewrite Nat.odd_succ, <- Nat.negb_odd.
      destruct inside, (Nat.odd _); reflexivity.
    + rewrite decide_False by discriminate.
      now rewrite xorb_false_r.
Qed.

Lemma isPointInPolygon_parity (point : Point) (polygonPoints : list Point) :
  isPointInPolygon point polygonPoints
  = Nat.odd (crossingCount point polygonPoints).
Proof.
  unfold isPointInPolygon, crossingCount.
  change (length polygonPoints - 1)
    with (wrapPrev (length polygonPoints) 0).
  now rewrite crossing_fold.
Qed.

(** C8, as stated, fails: for the two points (0,0) and (1,3) the edge is
    tested in both directions, the two intercepts round differently, and the
    point (1/3, 1) lies between them. *)
Lemma two_points_can_contain :
  length twoPoints = 2
  /\ isPointInPolygon (pt oneThird 1) twoPoints = true
  /\ ~ (forall (point : Point) (polygonPoints : list Point),
          length polygonPoints < 3 ->
          isPointInPolygon point polygonPoints = false).
Proof.
  assert (H : isPointInPolygon (pt oneThird 1) twoPoints = true)
    by (vm_compute; reflexivity).
  repeat split; try assumption.
  intros Hall. specialize (Hall (pt oneThird 1) twoPoints).
  rewrite H in Hall. discriminate Hall. simpl. lia.
Qed.

(** C8, amended.  [isPointInPolygon] answers true exactly when the number of
    crossing edges is odd.  It answers false for no point and for one point.
    For two points [a] and [b] it answers true exactly when the tests of the
    edge taken from [a] and taken from [b] disagree; they agree, and the
    answer is false, whenever the horizontal line through the point does not
    separate [a] from [b]. *)
Theorem isPointInPolygon_parity_and_degenerate (point : Point) :
  (forall polygonPoints : list Point,
     isPointInPolygon point polygonPoints
     = Nat.odd (crossingCount point polygonPoints))
  /\ isPointInPolygon point [] = false
  /\ (forall a : Point, isPointInPolygon point [a] = false)
  /\ (forall a b : Point,
        isPointInPolygon point [a; b]
        = xorb (intersect point a b) (intersect point b a))
  /\ (forall a b : Point,
        xorb (y point <? y a)%float (y point <? y b)%float = false ->
        isPointInPolygon point [a; b] = false).
Proof.
  split; [apply isPointInPolygon_parity|].
  split; [reflexivity|].
  assert (Htwo : forall a b, isPointInPolygon point [a; b]
                             = xorb (intersect point a b) (intersect point b a)).
  { intros a b. unfold isPointInPolygon. simpl.
    destruct (intersect point a b), (intersect point b a); reflexivity. }
  split; [|split; [exact Htwo|]].
  - intros a. unfold isPointInPolygon. simpl. unfold intersect.
    now rewrite xorb_nilpotent.
  - intros a b Hs. rewrite Htwo. unfold intersect.
    rewrite (xorb_comm (y point <? y b)%float), Hs. reflexivity.
Qed.

(* ===================================================================== *)
(** * Projection on a segment *)
(* ===================================================================== *)

(** C4, as stated, fails: the endpoints (0,0) and (2^-600, 0) differ, the
    parameter the code would compute is neither below 0 nor above 1, and
    yet there is no projection, because the computed length is zero. *)
Lemma projection_missing_for_distinct_ends :
  projectPointOnLine (pt 0 0) (pt 0 0) nearbyEnd = None
  /\ (x (pt 0 0) =? x nearbyEnd)%float = false
  /\ (projectionParameter (pt 0 0) (pt 0 0) nearbyEnd <? 0)%float = false
  /\ (1 <? projectionParameter (pt 0 0) (pt 0 0) nearbyEnd)%float = false
  /\ ~ (forall point a b : Point,
          projectPointOnLine point a b = None <->
          ((x a =? x b)%float = true /\ (y a =? y b)%float = true)
          \/ (projectionParameter point a b <? 0)%float = true
          \/ (1 <? projectionParameter point a b)%float = true).
Proof.
  assert (H1 : projectPointOnLine (pt 0 0) (pt 0 0) nearbyEnd = None)
    by (vm_compute; reflexivity).
  assert (H2 : (x (pt 0 0) =? x nearbyEnd)%float = false)
    by (vm_compute; reflexivity).
  assert (H3 : (projectionParameter (pt 0 0) (pt 0 0) nearbyEnd <? 0)%float
               = false) by (vm_compute; reflexivity).
  assert (H4 : (1 <? projectionParameter (pt 0 0) (pt 0 0) nearbyEnd)%float
               = false) by (vm_compute; reflexivity).
  repeat split; try assumption.
  intros Hall. apply (Hall (pt 0 0) (pt 0 0) nearbyEnd) in H1.
  destruct H1 as [[H _]|[H|H]]; congruence.
Qed.

(** C4, amended.  [projectPointOnLine] gives no point exactly when the
    computed length [sqrt(dx*dx + dy*dy)] equals zero or the computed
    parameter is below 0 or above 1.  The length is zero whenever the two
    endpoints are equal finite points.  In every other case the result is
    [start + t * (end - start)] for the computed parameter [t] itself, which
    is neither below 0 nor above 1. *)
Theorem projectPointOnLine_cases (point a b : Point) :
  (projectPointOnLine point a b = None <->
   (segmentLength a b =? 0)%float = true
   \/ (projectionParameter point a b <? 0)%float = true
   \/ (1 <? projectionParameter point a b)%float = true)
  /\ (is_finite (x a) = true -> is_finite (y a) = true ->
      (x a =? x b)%float = true -> (y a =? y b)%float = true ->
      (segmentLength a b =? 0)%float = true
      /\ projectPointOnLine point a b = None)
  /\ (forall q : Point,
        projectPointOnLine point a b = Some q ->
        q = {| x := (x a + projectionParameter point a b * (x b - x a))%float;
               y := (y a + projectionParameter point a b * (y b - y a))%float |}
        /\ (projectionParameter point a b <? 0)%float = false
        /\ (1 <? projectionParameter point a b)%float = false).
Proof.
  assert (Hcases :
    projectPointOnLine point a b
    = if (segmentLength a b =? 0)%float then None
      else if ((projectionParameter point a b <? 0)
               || (1 <? projectionParameter point a b))%float then None
      else Some {| x := (x a + projectionParameter point a b * (x b - x a))%float;
                   y := (y a + projectionParameter point a b * (y b - y a))%float |})
    by reflexivity.
  assert (Hzero : is_finite (x a) = true -> is_finite (y a) = true ->
                  (x a =? x b)%float = true -> (y a =? y b)%float = true ->
                  (segmentLength a b =? 0)%float = true).
  { intros Hfx Hfy Hx Hy. unfold segmentLength. cbv zeta.
    pose proof (FloatZero.sub_equal_finite _ _ Hfx Hx) as Hdx.
    pose proof (FloatZero.sub_equal_finite _ _ Hfy Hy) as Hdy.
    apply FloatZero.zero_eqb, FloatZero.sqrt_zero, FloatZero.add_zero;
      now apply FloatZero.mul_zero. }
  rewrite Hcases.
  destruct (segmentLength a b =? 0)%float eqn:Hlen.
  - split; [split; auto|]. split; [auto|]. intros q; discriminate.
  - destruct (projectionParameter point a b <? 0)%float eqn:Hlo;
      destruct (1 <? projectionParameter point a b)%float eqn:Hhi; simpl.
    1-3: (split; [split; auto|]; split;
          [intros Hfx Hfy Hx Hy; discriminate (Hzero Hfx Hfy Hx Hy)
          |intros q; discriminate]).
    split; [split; [discriminate|intros [H|[H|H]]; discriminate]|].
    split; [intros Hfx Hfy Hx Hy; discriminate (Hzero Hfx Hfy Hx Hy)|].
    intros q [= <-]. auto.
Qed.

Lemma projectPointOnLine_cases_witness :
  is_finite (x (pt 3 4)) = true
  /\ (segmentLength (pt 3 4) (pt 3 4) =? 0)%float = true
  /\ projectPointOnLine (pt 1 1) (pt 3 4) (pt 3 4) = None.
Proof.
  split; [reflexivity|].
  exact (proj1 (proj2 (projectPointOnLine_cases (pt 1 1) (pt 3 4) (pt 3 4)))
           eq_refl eq_refl eq_refl eq_refl).
Defined.

(* ===================================================================== *)
(** * The closest edge *)
(* ===================================================================== *)

Section ClosestEdge.
Local Open Scope float_scope.
Variable point : Point.
Variable polygonPoints : list Point.

Lemma scanned_step (k : nat) (acc : EdgeScan) :
  scanned point polygonPoints k acc ->
  scanned point polygonPoints (S k)
    (edgeScanStep point polygonPoints acc k).
Proof.
  unfold scanned, edgeScanStep. intros Hacc.
  destruct (edgeProjection point polygonPoints k) as [projection|] eqn:Hproj.
  - destruct (distance point projection <? EDGE_DETECTION_THRESHOLD) eqn:Hd;
      simpl.
    + destruct (distance point projection <? closestDistance acc) eqn:Hbest.
      * (* a new minimum *)
        simpl. split; [reflexivity|]. exists k.
        split; [lia|]. split; [reflexivity|]. split; [split; assumption|].
        intros j q' Hj [Hq' Hdq'].
        destruct (Nat.eq_dec j k) as [->|Hne].
        { rewrite Hproj in Hq'. injection Hq' as <-. split; [|lia].
          destruct (distance point projection <? distance point projection)
            eqn:Hirr; [|reflexivity].
          now rewrite (FloatOrder.ltb_asym _ _ Hirr) in Hirr. }
        assert (Hjk : (j < k)%nat) by lia.
        assert (Hlt : (distance point projection <? distance point q') = true).
        { destruct (closestPoint acc) as [q0|].
          - destruct Hacc as (Hd0 & i0 & _ & _ & _ & Hmin).
            destruct (Hmin j q' Hjk (conj Hq' Hdq')) as [Hge _].
            rewrite Hd0 in Hbest.
            exact (FloatOrder.ltb_below_earlier _ _ _ _ Hbest Hge Hdq').
          - destruct Hacc as [_ Hnone].
            destruct (Hnone j q' Hjk (conj Hq' Hdq')). }
        split; [now apply FloatOrder.ltb_asym|auto].
      * (* a candidate that is not below the minimum *)
        destruct (closestPoint acc) as [q0|].
        -- destruct Hacc as (Hd0 & i0 & Hi0 & Hidx & Hcand & Hmin).
           split; [assumption|]. exists i0.
           split; [lia|]. split; [assumption|]. split; [assumption|].
           intros j q' Hj [Hq' Hdq'].
           destruct (Nat.eq_dec j k) as [->|Hne].
           ++ rewrite Hproj in Hq'. injection Hq' as <-.
              rewrite Hd0 in Hbest. split; [assumption|lia].
           ++ apply Hmin; [lia|split; assumption].
        -- destruct Hacc as [Hinf _]. rewrite Hinf in Hbest.
           rewrite (FloatOrder.ltb_infinity _ _ Hd) in Hbest. discriminate.
    + (* the projection is too far *)
      destruct (closestPoint acc) as [q0|].
      * destruct Hacc as (Hd0 & i0 & Hi0 & Hidx & Hcand & Hmin).
        split; [assumption|]. exists i0.
        split; [lia|]. split; [assumption|]. split; [assumption|].
        intros j q' Hj [Hq' Hdq'].
        destruct (Nat.eq_dec j k) as [->|Hne].
        -- rewrite Hproj in Hq'. injection Hq' as <-. congruence.
        -- apply Hmin; [lia|split; assumption].
      * destruct Hacc as [Hinf Hnone]. split; [assumption|].
        intros j q' Hj [Hq' Hdq'].
        destruct (Nat.eq_dec j k) as [->|Hne].
        -- rewrite Hproj in Hq'. injection Hq' as <-. congruence.
        -- apply (Hnone j q'); [lia|split; assumption].
  - (* no projection on this edge *)
    destruct (closestPoint acc) as [q0|].
    + destruct Hacc as (Hd0 & i0 & Hi0 & Hidx & Hcand & Hmin).
      split; [assumption|]. exists i0.
      split; [lia|]. split; [assumption|]. split; [assumption|].
      intros j q' Hj [Hq' Hdq'].
      destruct (Nat.eq_dec j k) as [->|Hne]; [congruence|].
      apply Hmin; [lia|split; assumption].
    + destruct Hacc as [Hinf Hnone]. split; [assumption|].
      intros j q' Hj [Hq' Hdq'].
      destruct (Nat.eq_dec j k) as [->|Hne]; [congruence|].
      apply (Hnone j q'); [lia|split; assumption].
Qed.

Lemma scanned_fold (m k : nat) (acc : EdgeScan) :
  scanned point polygonPoints k acc ->
  scanned point polygonPoints (k + m) (edgeScan point polygonPoints (seq k m) acc).
Proof.
  revert k acc. induction m as [|m IH]; intros k acc Hacc.
  - now rewrite Nat.add_0_r.
  - rewrite <- cons_seq. unfold edgeScan. cbn [fold_left].
    replace (k + S m)%nat with (S k + m)%nat by lia.
    apply IH, scanned_step, Hacc.
Qed.

Lemma scanned_all :
  scanned point polygonPoints (length polygonPoints)
    (edgeScan point polygonPoints (seq 0 (length polygonPoints)) edgeScanInit).
Proof.
  apply (scanned_fold (length polygonPoints) 0 edgeScanInit).
  split; [reflexivity|]. intros j q Hj. lia.
Qed.

End ClosestEdge.

Lemma edgeProjection_Some (point : Point) (polygonPoints : list Point)
    (i : nat) (q : Point) :
  edgeProjection point polygonPoints i = Some q <->
  exists start end_ : Point,
    polygonPoints !! i = Some start
    /\ polygonPoints !! ((i + 1) mod length polygonPoints) = Some end_
    /\ projectPointOnLine point start end_ = Some q.
Proof.
  unfold edgeProjection. split.
  - destruct (polygonPoints !! i) as [start|]; [|discriminate].
    destruct (polygonPoints !! ((i + 1) mod length polygonPoints))
      as [end_|]; [|discriminate].
    intros H. exists start, end_. auto.
  - intros (start & end_ & -> & -> & H). exact H.
Qed.

(** C3.  Every index [i] below the number [n] of points names an edge, from
    point [i] to point [(i + 1) mod n].  When [findClosestEdgePoint]
    answers, the answer is the point that [projectPointOnLine] gives for the
    click on some edge [i], at a distance below the threshold 10, with
    [i + 1] as the index; no edge whose projection is below the threshold
    is closer, and every such edge before [i] is strictly farther.  When it
    does not answer, no edge has a projection below the threshold. *)
Theorem findClosestEdgePoint_closest (point : Point)
    (polygonPoints : list Point) :
  (forall i : nat,
     i < length polygonPoints ->
     exists start end_ : Point,
       polygonPoints !! i = Some start
       /\ polygonPoints !! ((i + 1) mod length polygonPoints) = Some end_)
  /\ match findClosestEdgePoint point polygonPoints with
     | Some edgePoint =>
         exists (i : nat) (start end_ : Point),
           i < length polygonPoints
           /\ ep_index edgePoint = i + 1
           /\ polygonPoints !! i = Some start
           /\ polygonPoints !! ((i + 1) mod length polygonPoints) = Some end_
           /\ projectPointOnLine point start end_ = Some (ep_point edgePoint)
           /\ (distance point (ep_point edgePoint)
               <? EDGE_DETECTION_THRESHOLD)%float = true
           /\ forall (j : nat) (start' end' q : Point),
                j < length polygonPoints ->
                polygonPoints !! j = Some start' ->
                polygonPoints !! ((j + 1) mod length polygonPoints)
                = Some end' ->
                projectPointOnLine point start' end' = Some q ->
                (distance point q <? EDGE_DETECTION_THRESHOLD)%float = true ->
                (distance point q
                 <? distance point (ep_point edgePoint))%float = false
                /\ (j < i ->
                    (distance point (ep_point edgePoint)
                     <? distance point q)%float = true)
     | None =>
         forall (j : nat) (start end_ q : Point),
           j < length polygonPoints ->
           polygonPoints !! j = Some start ->
           polygonPoints !! ((j + 1) mod length polygonPoints) = Some end_ ->
           projectPointOnLine point start end_ = Some q ->
           (distance point q <? EDGE_DETECTION_THRESHOLD)%float = false
     end.
Proof.
  split.
  - intros i Hi.
    destruct (lookup_lt_is_Some_2 polygonPoints i Hi) as [start Hstart].
    assert (Hnext : (i + 1) mod length polygonPoints < length polygonPoints)
      by (apply Nat.mod_upper_bound; lia).
    destruct (lookup_lt_is_Some_2 polygonPoints _ Hnext) as [end_ Hend].
    exists start, end_. auto.
  - pose proof (scanned_all point polygonPoints) as H.
    unfold findClosestEdgePoint, scanned in *.
    destruct (closestPoint _) as [q0|].
    + destruct H as (_ & i & Hi & Hidx & [Hproj Hd] & Hmin).
      apply edgeProjection_Some in Hproj as (start & end_ & Hs & He & Hp).
      exists i, start, end_. simpl. rewrite Hidx.
      split; [assumption|]. split; [lia|].
      do 4 (split; [assumption|]).
      intros j start' end' q Hj Hs' He' Hp' Hdq.
      apply Hmin; [assumption|]. split; [|assumption].
      apply edgeProjection_Some. exists start', end'. auto.
    + destruct H as [_ Hnone]. intros j start end_ q Hj Hs He Hp.
      destruct (distance point q <? EDGE_DETECTION_THRESHOLD)%float eqn:Hd;
        [|reflexivity].
      destruct (Hnone j q Hj). split; [|assumption].
      apply edgeProjection_Some. exists start, end_. auto.
Qed.

(* ===================================================================== *)
(** * Scans *)
(* ===================================================================== *)

(** A scan upwards stops at the least index that passes the test. *)
Lemma findFirst_seq (test : nat -> bool) (m a i : nat) :
  findFirst (seq a m) test = Some i ->
  a <= i < a + m /\ test i = true /\ forall j, a <= j < i -> test j = false.
Proof.
  revert a. induction m as [|m IH]; intros a; simpl; [discriminate|].
  destruct (test a) eqn:Ha.
  - intros [= <-]. repeat split; try lia. assumption.
  - intros H. destruct (IH _ H) as (Hi & Ht & Hleast).
    repeat split; try lia; [assumption|].
    intros j Hj. destruct (Nat.eq_dec j a) as [->|]; [assumption|].
    apply Hleast. lia.
Qed.

(** A scan downwards stops at the greatest index that passes the test. *)
Lemma findFirst_downFrom (test : nat -> bool) (n i : nat) :
  findFirst (downFrom n) test = Some i ->
  i < n /\ test i = true /\ forall j, i < j < n -> test j = false.
Proof.
  unfold downFrom. induction n as [|n IH].
  - discriminate.
  - rewrite seq_S, rev_app_distr. simpl.
    destruct (test n) eqn:Hn.
    + intros [= <-]. repeat split; try lia. assumption.
    + intros H. destruct (IH H) as (Hi & Ht & Hgreatest).
      repeat split; try lia; [assumption|].
      intros j Hj. destruct (Nat.eq_dec j n) as [->|]; [assumption|].
      apply Hgreatest. lia.
Qed.

Lemma findFirst_downFrom_None (test : nat -> bool) (n : nat) :
  findFirst (downFrom n) test = None -> forall j, j < n -> test j = false.
Proof.
  intros H j Hj. apply (findFirst_None _ _ H).
  unfold downFrom. apply in_rev. rewrite rev_involutive.
  apply in_seq. lia.
Qed.

Lemma edgeSplit_findFirst (point : Point) (s : State) (idx : list nat) :
  edgeSplit point s idx
  = match findFirst idx (hasEdgePoint point s) with
    | Some i =>
        match polygons s !! i with
        | Some polygon =>
            match findClosestEdgePoint point (points polygon) with
            | Some edgePoint =>
                Some (setSelectedHandle (Some (ep_index edgePoint))
                       (setSelectedPolygon (Some i)
                         (setPolygons
                            (<[i := withPoints polygon
                                      (splice (ep_index edgePoint)
                                              (ep_point edgePoint)
                                              (points polygon))]>
                               (polygons s)) s)))
            | None => None
            end
        | None => None
        end
    | None => None
    end.
Proof.
  induction idx as [|i rest IH]; simpl; [reflexivity|].
  unfold hasEdgePoint at 1.
  destruct (polygons s !! i) as [polygon|] eqn:Hi; [|exact IH].
  destruct (findClosestEdgePoint point (points polygon)) eqn:Hep; [|exact IH].
  now rewrite Hi, Hep.
Qed.

(** The index returned by [findClosestEdgePoint] is between 1 and the
    number of points. *)
Lemma findClosestEdgePoint_index (point : Point) (polygonPoints : list Point)
    (edgePoint : EdgePoint) :
  findClosestEdgePoint point polygonPoints = Some edgePoint ->
  1 <= ep_index edgePoint <= length polygonPoints.
Proof.
  pose proof (scanned_all point polygonPoints) as H.
  unfold findClosestEdgePoint, scanned in *.
  destruct (closestPoint _) as [q0|]; [|discriminate].
  destruct H as (_ & i & Hi & Hidx & _). intros [= <-]. simpl.
  rewrite Hidx. lia.
Qed.

Lemma splice_lookup {A : Type} (start : nat) (item : A) (l : list A) :
  start <= length l -> splice start item l !! start = Some item.
Proof.
  intros H. unfold splice.
  rewrite lookup_app_r by (rewrite length_take; lia).
  rewrite length_take, Nat.min_l by lia. now rewrite Nat.sub_diag.
Qed.

Lemma splice_delete {A : Type} (start : nat) (item : A) (l : list A) :
  start <= length l -> delete start (splice start item l) = l.
Proof.
  intros H. unfold splice.
  assert (Hlen : length (take start l) = start)
    by (rewrite length_take; lia).
  rewrite <- Hlen at 1. rewrite delete_middle. apply take_drop.
Qed.

(* ===================================================================== *)
(** * The cases of the handlers *)
(* ===================================================================== *)

Lemma handlePencilInteraction_cases (point : Point) (s : State) :
  (closesShape point s = true
   /\ handlePencilInteraction point s = committed s)
  \/ (closesShape point s = false /\ currentPoints s = []
      /\ exists i polygon edgePoint,
           polygons s !! i = Some polygon
           /\ findClosestEdgePoint point (points polygon) = Some edgePoint
           /\ (forall j, i < j < length (polygons s) ->
                 hasEdgePoint point s j = false)
           /\ handlePencilInteraction point s
              = edgeInserted i polygon edgePoint s)
  \/ (closesShape point s = false
      /\ (currentPoints s = [] ->
          forall j, j < length (polygons s) -> hasEdgePoint point s j = false)
      /\ handlePencilInteraction point s
         = setCurrentPoints (currentPoints s ++ [point]) s).
Proof.
  unfold handlePencilInteraction.
  destruct (closesShape point s) eqn:Hc; [left; auto|right].
  destruct (currentPoints s) as [|p0 rest] eqn:Hcp; simpl.
  2: { right. repeat split. discriminate. }
  rewrite edgeSplit_findFirst.
  destruct (findFirst _ _) as [i|] eqn:Hf.
  - apply findFirst_downFrom in Hf as (Hi & Ht & Htop).
    unfold hasEdgePoint in Ht.
    destruct (polygons s !! i) as [polygon|] eqn:Hp; [|discriminate].
    destruct (findClosestEdgePoint point (points polygon)) as [ep|] eqn:Hep;
      [|discriminate].
    left. repeat split. exists i, polygon, ep. auto.
  - right. repeat split. intros _.
    now apply findFirst_downFrom_None.
Qed.

Lemma selectByFill_cases (point : Point) (s : State) :
  (exists i,
      i < length (polygons s) /\ containsAt point s i = true
      /\ (forall j, i < j < length (polygons s) -> containsAt point s j = false)
      /\ selectByFill point s
         = setDragMode move
             (setDragStart (Some point)
               (setIsDragging true (setSelectedPolygon (Some i) s))))
  \/ ((forall j, j < length (polygons s) -> containsAt point s j = false)
      /\ selectByFill point s
         = setSelectedHandle None (setSelectedPolygon None s)).
Proof.
  unfold selectByFill.
  change (fun i => match polygons s !! i with
                   | Some polygon => isPointInPolygon point (points polygon)
                   | None => false
                   end) with (containsAt point s).
  destruct (findFirst _ _) as [i|] eqn:Hf.
  - left. exists i. apply findFirst_downFrom in Hf as (Hi & Ht & Htop). auto.
  - right. split; [|reflexivity]. now apply findFirst_downFrom_None.
Qed.

Lemma handleStart_cases (point : Point) (s s' : State) :
  handleStart point s = Some s' ->
  (activeTool s = pencil /\ s' = s)
  \/ (activeTool s = select
      /\ exists sp polygon i,
           selectedPolygon s = Some sp /\ polygons s !! sp = Some polygon
           /\ i < length (points polygon)
           /\ nearHandleAt point polygon i = true
           /\ (forall j, j < i -> nearHandleAt point polygon j = false)
           /\ s' = setDragStart (Some point)
                     (setIsDragging true
                       (setSelectedHandle (Some i) (setDragMode resize s))))
  \/ (activeTool s <> pencil
      /\ (activeTool s = select ->
          forall sp polygon,
            selectedPolygon s = Some sp -> polygons s !! sp = Some polygon ->
            forall j, j < length (points polygon) ->
              nearHandleAt point polygon j = false)
      /\ s' = selectByFill point s).
Proof.
  unfold handleStart.
  destruct (activeTool s) eqn:Htool; simpl.
  - intros [= <-]. right; right. repeat split; discriminate.
  - intros [= <-]. now left.
  - destruct (selectedPolygon s) as [sp|] eqn:Hsp.
    2: { intros [= <-]. right; right. repeat split; discriminate. }
    destruct (polygons s !! sp) as [polygon|] eqn:Hp; [|discriminate].
    change (fun i => match points polygon !! i with
                     | Some handlePoint => isPointNearHandle point handlePoint
                     | None => false
                     end) with (nearHandleAt point polygon).
    destruct (findFirst _ _) as [i|] eqn:Hf; intros [= <-].
    + right; left. split; [reflexivity|]. exists sp, polygon, i.
      apply findFirst_seq in Hf as (Hi & Ht & Hleast).
      repeat split; try assumption; try lia. intros j Hj. apply Hleast. lia.
    + right; right. split; [discriminate|]. split; [|reflexivity].
      intros _ sp' polygon' [= <-] Hp' j Hj.
      rewrite Hp in Hp'. injection Hp' as <-.
      apply (findFirst_None _ _ Hf). apply in_seq. lia.
Qed.

(** A move that changes the polygons: the selected one is replaced by a
    polygon of the same colour and as many points. *)
Lemma movedPolygons_cases (dx dy : float) (sp : nat) (s : State)
    (updatedPolygons : list Polygon) :
  movedPolygons dx dy sp s = Some updatedPolygons ->
  (dragMode s = resize
   /\ exists sh polygon old,
        selectedHandle s = Some sh /\ polygons s !! sp = Some polygon
        /\ points polygon !! sh = Some old
        /\ updatedPolygons
           = <[sp := withPoints polygon
                       (<[sh := shift dx dy old]> (points polygon))]>
               (polygons s))
  \/ (dragMode s = move
      /\ exists polygon,
           polygons s !! sp = Some polygon
           /\ updatedPolygons
              = <[sp := withPoints polygon (map (shift dx dy) (points polygon))]>
                  (polygons s))
  \/ (dragMode s = resize /\ selectedHandle s = None
      /\ updatedPolygons = polygons s).
Proof.
  unfold movedPolygons.
  destruct (dragMode s) eqn:Hdm; simpl.
  - destruct (selectedHandle s);
      (destruct (polygons s !! sp) as [polygon|] eqn:Hp; [|discriminate];
       intros [= <-]; right; left; split; [reflexivity|];
       exists polygon; split; reflexivity).
  - destruct (selectedHandle s) as [sh|] eqn:Hsh.
    + destruct (polygons s !! sp) as [polygon|] eqn:Hp; [|discriminate].
      destruct (points polygon !! sh) as [old|] eqn:Hold; [|discriminate].
      intros [= <-]. left. split; [reflexivity|].
      exists sh, polygon, old. repeat split; assumption.
    + intros [= <-]. right; right. auto.
Qed.

Lemma handleMove_cases (point : Point) (s s' : State) :
  handleMove point s = Some s' ->
  ((isDragging s = false \/ selectedPolygon s = None \/ dragStart s = None)
   /\ s' = s)
  \/ (isDragging s = true
      /\ exists sp anchor updatedPolygons,
           selectedPolygon s = Some sp /\ dragStart s = Some anchor
           /\ movedPolygons (x point - x anchor)%float (y point - y anchor)%float
                            sp s = Some updatedPolygons
           /\ s' = setDragStart (Some point) (setPolygons updatedPolygons s)).
Proof.
  unfold handleMove.
  destruct (isDragging s); simpl; [|intros [= <-]; left; auto].
  destruct (selectedPolygon s) as [sp|]; [|intros [= <-]; left; auto].
  destruct (dragStart s) as [anchor|]; [|intros [= <-]; left; auto].
  destruct (movedPolygons _ _ _ _) as [ups|] eqn:Hm; [|discriminate].
  intros [= <-]. right. split; [reflexivity|]. exists sp, anchor, ups. auto.
Qed.

Lemma movedPolygons_colors (dx dy : float) (sp : nat) (s : State)
    (updatedPolygons : list Polygon) :
  movedPolygons dx dy sp s = Some updatedPolygons ->
  color <$> updatedPolygons = color <$> polygons s.
Proof.
  intros H.
  assert (Hins : forall polygon pts,
            polygons s !! sp = Some polygon ->
            color <$> <[sp := withPoints polygon pts]> (polygons s)
            = color <$> polygons s).
  { intros polygon pts Hp. rewrite list_fmap_insert. simpl.
    apply list_insert_id. now rewrite list_lookup_fmap, Hp. }
  apply movedPolygons_cases in H
    as [(_ & sh & polygon & old & _ & Hp & _ & ->)
       |[(_ & polygon & Hp & ->)|(_ & _ & ->)]]; eauto.
Qed.

(* ===================================================================== *)
(** * Drag and selection, amended *)
(* ===================================================================== *)

Lemma existsb_seq_false (f : nat -> bool) (n : nat) :
  existsb f (seq 0 n) = false <-> forall j, j < n -> f j = false.
Proof.
  split.
  - intros H j Hj. destruct (f j) eqn:Hf; [|reflexivity].
    rewrite <- H. symmetry. apply existsb_exists. exists j.
    split; [apply in_seq; lia|assumption].
  - intros H. destruct (existsb f (seq 0 n)) eqn:He; [|reflexivity].
    apply existsb_exists in He as (j & Hj & Hf). apply in_seq in Hj.
    rewrite H in Hf by lia. discriminate.
Qed.

(** The not-found branch of [handleStart] is taken exactly by the presses
    that hit nothing. *)
Lemma handleStart_miss (point : Point) (s s' : State) :
  handleStart point s = Some s' ->
  pressMisses point s = true <->
  (activeTool s <> pencil
   /\ s' = setSelectedHandle None (setSelectedPolygon None s)).
Proof.
  intros H. unfold pressMisses, insideSomePolygon.
  apply handleStart_cases in H
    as [[Htool ->]
       |[(Htool & sp & polygon & i & Hsp & Hp & Hi & Hnear & _ & ->)
        |(Htool & Hfar & ->)]].
  - rewrite Htool. simpl. split; [discriminate|]. intros [Hne _]. congruence.
  - assert (Hhit : nearSomeHandle point s = true).
    { unfold nearSomeHandle. rewrite Htool, Hsp, Hp.
      apply existsb_exists. exists i. split; [apply in_seq; lia|assumption]. }
    rewrite Hhit, andb_false_r. simpl. split; [discriminate|].
    intros [_ Heq]. apply (f_equal selectedHandle) in Heq. discriminate.
  - assert (Hnohit : nearSomeHandle point s = false).
    { unfold nearSomeHandle.
      destruct (activeTool s) eqn:Ht; try reflexivity.
      destruct (selectedPolygon s) as [sp|] eqn:Hsp; [|reflexivity].
      destruct (polygons s !! sp) as [polygon|] eqn:Hp; [|reflexivity].
      apply existsb_seq_false. apply (Hfar eq_refl sp polygon eq_refl Hp). }
    assert (Hnp : Tool_eqb (activeTool s) pencil = false)
      by (destruct (activeTool s); try reflexivity; congruence).
    rewrite Hnp, Hnohit. simpl.
    destruct (selectByFill_cases point s)
      as [(i & Hi & Hc & _ & ->)|[Hnone ->]].
    + assert (Hin : existsb (containsAt point s) (seq 0 (length (polygons s)))
                    = true).
      { apply existsb_exists. exists i. split; [apply in_seq; lia|assumption]. }
      rewrite Hin. simpl. split; [discriminate|].
      intros [_ Heq]. apply (f_equal selectedPolygon) in Heq. discriminate.
    + rewrite (proj2 (existsb_seq_false _ _) Hnone). simpl.
      split; auto.
Qed.

Lemma step_keeps_drag_selected (s s' : State) (e : Event) :
  (isDragging s = true -> is_Some (selectedPolygon s)) ->
  match e with
  | Press point => isDragging s && pressMisses point s = false
  | _ => True
  end ->
  step s e = Some s' ->
  isDragging s' = true -> is_Some (selectedPolygon s').
Proof.
  intros HJ Hpress. destruct e as [point|point| |point|tool]; simpl.
  - intros H. pose proof (handleStart_miss point s s' H) as Hmiss.
    apply handleStart_cases in H
      as [[_ ->]
         |[(_ & sp & polygon & i & Hsp & _ & _ & _ & _ & ->)|(Htool & _ & Hs')]];
      [exact HJ|simpl; rewrite Hsp; eauto|].
    destruct (selectByFill_cases point s)
      as [(i & _ & _ & _ & Heq)|[_ Heq]]; rewrite Heq in Hs'; subst s'.
    + simpl. eauto.
    + simpl. intros Hd. rewrite Hd in Hpress. simpl in Hpress.
      rewrite (proj2 Hmiss) in Hpress by auto. discriminate.
  - intros H. apply handleMove_cases in H
      as [[_ ->]|(_ & sp & anchor & ups & Hsp & _ & _ & ->)]; [exact HJ|].
    simpl. rewrite Hsp. eauto.
  - intros [= <-]. unfold handleEnd.
    destruct (negb (isDragging s)); discriminate.
  - intros [= <-]. unfold handleInteraction.
    destruct (isDragging s) eqn:Hd; [intros _; now apply HJ|].
    destruct (Tool_eqb (activeTool s) pencil); [|congruence].
    rewrite (proj1 (handlePencilInteraction_isDragging point s)). congruence.
  - intros [= <-]. destruct tool; discriminate.
Qed.

(** C5, amended.  Along every event sequence in which no press that hits
    nothing (near no vertex of the selected polygon under the select tool,
    inside no polygon) arrives during an active drag, a state with an active
    drag has a selected polygon.  A press that hits nothing during an
    active drag is the one exception: it always leaves the drag active with
    no polygon selected. *)
Theorem drag_has_selection :
  (forall (es : list Event) (s : State),
     run init es = Some s ->
     noMissDuringDrag init es = true ->
     isDragging s = true ->
     is_Some (selectedPolygon s))
  /\ (forall (s s' : State) (point : Point),
        isDragging s = true ->
        pressMisses point s = true ->
        step s (Press point) = Some s' ->
        isDragging s' = true /\ selectedPolygon s' = None).
Proof.
  split.
  - intros es s.
    assert (H : forall s0,
               (isDragging s0 = true -> is_Some (selectedPolygon s0)) ->
               run s0 es = Some s -> noMissDuringDrag s0 es = true ->
               isDragging s = true -> is_Some (selectedPolygon s)).
    { induction es as [|e rest IH]; simpl; intros s0 HJ.
      - intros [= <-] _. exact HJ.
      - destruct (step s0 e) as [s1|] eqn:Hs; [|discriminate].
        intros Hrun Hp. apply andb_true_iff in Hp as [Hp1 Hp2].
        apply (IH s1); try assumption.
        apply (step_keeps_drag_selected s0 s1 e HJ); [|assumption].
        destruct e; try exact I. now apply negb_true_iff in Hp1. }
    apply H. discriminate.
  - intros s s' point Hd Hmiss Hs. simpl in Hs.
    apply (handleStart_miss point s s' Hs) in Hmiss as [_ ->].
    simpl. auto.
Qed.

Lemma drag_has_selection_witness :
  run init pressTwiceInside = Some handDragging
  /\ noMissDuringDrag init pressTwiceInside = true
  /\ isDragging handDragging = true
  /\ is_Some (selectedPolygon handDragging).
Proof.
  assert (Hrun : run init pressTwiceInside = Some handDragging)
    by (vm_compute; reflexivity).
  assert (Hok : noMissDuringDrag init pressTwiceInside = true)
    by (vm_compute; reflexivity).
  split; [exact Hrun|]. split; [exact Hok|]. split; [reflexivity|].
  exact (proj1 drag_has_selection pressTwiceInside handDragging Hrun Hok
           eq_refl).
Defined.


(* ===================================================================== *)
(** * Selection, anchor and palette in the reachable states *)
(* ===================================================================== *)

Lemma Settled_init : Settled init.
Proof.
  split; simpl; try congruence; try (intros [? ?]; discriminate).
  intros k polygon H. rewrite lookup_nil in H. discriminate.
Qed.

Lemma palette_insert (ps : list Polygon) (i : nat) (polygon : Polygon)
    (pts : list Point) :
  (forall k q, ps !! k = Some q -> color q = nth (k mod 8) colors ""%string) ->
  ps !! i = Some polygon ->
  forall k q, <[i := withPoints polygon pts]> ps !! k = Some q ->
    color q = nth (k mod 8) colors ""%string.
Proof.
  intros Hpal Hi k q Hk.
  destruct (Nat.eq_dec i k) as [<-|Hne].
  - rewrite list_lookup_insert_eq in Hk by (eapply lookup_lt_Some, Hi).
    injection Hk as <-. simpl. now apply Hpal.
  - rewrite list_lookup_insert_ne in Hk by assumption. now apply Hpal.
Qed.

Lemma handlePencilInteraction_Settled (point : Point) (s : State) :
  activeTool s = pencil -> Settled s ->
  Settled (handlePencilInteraction point s).
Proof.
  intros Htool HS.
  destruct (handlePencilInteraction_cases point s)
    as [[_ ->]|[(_ & _ & i & polygon & ep & Hi & _ & _ & ->)|(_ & _ & ->)]].
  - split; cbn -[nth Nat.modulo colors]; try congruence;
      try apply (settled_anchor _ HS); try apply (settled_handle _ HS);
      try apply (settled_resize _ HS).
    intros k q Hk. apply lookup_app_Some in Hk as [Hl|[Hge Hr]].
    + now apply (settled_palette _ HS).
    + destruct (k - length (polygons s)) as [|d] eqn:Hd; [|discriminate].
      injection Hr as <-. cbn -[nth Nat.modulo colors].
      replace k with (length (polygons s)) by lia. reflexivity.
  - split; simpl; try congruence; eauto;
      try apply (settled_anchor _ HS); try apply (settled_resize _ HS).
    apply palette_insert; [apply (settled_palette _ HS)|assumption].
  - split; simpl; try congruence;
      try apply (settled_anchor _ HS); try apply (settled_handle _ HS);
      try apply (settled_resize _ HS); apply (settled_palette _ HS).
Qed.

Lemma handleStart_Settled (point : Point) (s s' : State) :
  Settled s -> handleStart point s = Some s' -> Settled s'.
Proof.
  intros HS H.
  apply handleStart_cases in H
    as [[_ ->]|[(Htool & sp & polygon & i & Hsp & _ & _ & _ & _ & ->)
               |(Htool & _ & ->)]]; [assumption| |].
  - split; simpl; eauto; try apply (settled_drawing _ HS);
      apply (settled_palette _ HS).
  - destruct (selectByFill_cases point s) as [(i & _ & _ & _ & ->)|[_ ->]].
    + split; simpl; eauto; try discriminate;
        try apply (settled_drawing _ HS); apply (settled_palette _ HS).
    + split; simpl; try apply (settled_drawing _ HS);
        try apply (settled_anchor _ HS); try apply (settled_resize _ HS);
        try apply (settled_palette _ HS).
      intros [? ?]; discriminate.
Qed.

Lemma handleMove_Settled (point : Point) (s s' : State) :
  Settled s -> handleMove point s = Some s' -> Settled s'.
Proof.
  intros HS H.
  apply handleMove_cases in H
    as [[_ ->]|(Hd & sp & anchor & ups & Hsp & Hds & Hm & ->)]; [assumption|].
  split; simpl; try apply (settled_drawing _ HS);
    try apply (settled_handle _ HS); try apply (settled_resize _ HS); auto.
  intros k q Hk. apply movedPolygons_colors in Hm.
  assert (Hc : (color <$> polygons s) !! k = Some (color q))
    by (rewrite <- Hm, list_lookup_fmap, Hk; reflexivity).
  rewrite list_lookup_fmap in Hc.
  destruct (polygons s !! k) as [q0|] eqn:Hq0; [|discriminate].
  injection Hc as <-. now apply (settled_palette _ HS).
Qed.

Lemma handleEnd_Settled (s : State) : Settled s -> Settled (handleEnd s).
Proof.
  intros HS. unfold handleEnd.
  destruct (negb (isDragging s)); split; simpl;
    try apply (settled_drawing _ HS); try apply (settled_handle _ HS);
    try apply (settled_palette _ HS); try discriminate;
    intros [? ?]; discriminate.
Qed.

Lemma handleInteraction_Settled (point : Point) (s : State) :
  Settled s -> Settled (handleInteraction point s).
Proof.
  intros HS. unfold handleInteraction.
  destruct (isDragging s); [assumption|].
  destruct (Tool_eqb (activeTool s) pencil) eqn:Htool; [|assumption].
  apply handlePencilInteraction_Settled; [|assumption].
  now apply Tool_eqb_eq.
Qed.

Lemma handleToolChange_Settled (tool : Tool) (s : State) :
  Settled s -> Settled (handleToolChange tool s).
Proof.
  intros HS. destruct tool; split; simpl;
    try apply (settled_handle _ HS); try apply (settled_palette _ HS);
    try congruence; try discriminate; intros [? ?]; discriminate.
Qed.

Lemma step_Settled (s s' : State) (e : Event) :
  Settled s -> step s e = Some s' -> Settled s'.
Proof.
  intros HS. destruct e as [point|point| |point|tool]; simpl.
  - now apply handleStart_Settled.
  - now apply handleMove_Settled.
  - intros [= <-]. now apply handleEnd_Settled.
  - intros [= <-]. now apply handleInteraction_Settled.
  - intros [= <-]. now apply handleToolChange_Settled.
Qed.

Lemma reachable_Settled (s : State) : reachable s -> Settled s.
Proof.
  intros [es Hes]. revert Hes. generalize Settled_init. generalize init.
  induction es as [|e rest IH]; simpl; intros s0 HS.
  - now intros [= <-].
  - destruct (step s0 e) as [s1|] eqn:Hs; [|discriminate].
    apply IH. eapply step_Settled; eassumption.
Qed.

Lemma reachable_afterTriangle : reachable afterTriangle.
Proof. exists (drawTriangle ++ [Commit (pt 5 5)]). vm_compute. reflexivity. Qed.

Lemma reachable_afterThreeClicks : reachable afterThreeClicks.
Proof. exists drawTriangle. vm_compute. reflexivity. Qed.

Lemma reachable_triangleSelected : reachable triangleSelected.
Proof.
  exists (selectVertexOfSquare ++ [Press (pt 280 20)]).
  vm_compute. reflexivity.
Qed.

Lemma reachable_vertexGrabbed : reachable vertexGrabbed.
Proof. exists grabVertexOfSquare. vm_compute. reflexivity. Qed.

(* ===================================================================== *)
(** * Further properties of the state machine *)
(* ===================================================================== *)

(** X1.  No event sequence makes a handler throw: from the initial state
    every sequence of events runs to its end, and in the state it leaves
    every further event is handled ([polygons[selectedPolygon]] and
    [updatedPoints[selectedHandle]] are always defined when read). *)
Theorem events_never_throw (es : list Event) :
  exists s : State,
    run init es = Some s /\ forall e : Event, is_Some (step s e).
Proof.
  destruct (run_total es) as [s Hs]. exists s. split; [assumption|].
  intros e. apply step_total. eapply run_Inv; [apply Inv_init|exact Hs].
Qed.

(** X2.  In every reachable state the selected polygon, when there is one,
    is an index into the store, and a vertex is selected only while a
    polygon is. *)
Theorem selection_is_valid (s : State) :
  reachable s ->
  (forall k, selectedPolygon s = Some k -> is_Some (polygons s !! k))
  /\ (is_Some (selectedHandle s) -> is_Some (selectedPolygon s)).
Proof.
  intros Hr. split.
  - intros k Hk. apply lookup_lt_is_Some_2.
    apply (inv_selected _ (reachable_Inv _ Hr) k Hk).
  - apply (settled_handle _ (reachable_Settled _ Hr)).
Qed.

Lemma selection_is_valid_witness :
  reachable triangleSelected
  /\ (forall k, selectedPolygon triangleSelected = Some k ->
        is_Some (polygons triangleSelected !! k))
  /\ (is_Some (selectedHandle triangleSelected) ->
      is_Some (selectedPolygon triangleSelected)).
Proof.
  split; [exact reachable_triangleSelected|].
  exact (selection_is_valid triangleSelected reachable_triangleSelected).
Defined.

(** X3.  While a vertex is being dragged (active drag in resize mode with a
    selected polygon and a selected vertex), the tool is the select tool and
    the selected vertex is a vertex of the selected polygon. *)
Theorem resize_drag_vertex_valid (s : State) (k h : nat) :
  reachable s ->
  isDragging s = true -> dragMode s = resize ->
  selectedPolygon s = Some k -> selectedHandle s = Some h ->
  activeTool s = select
  /\ exists polygon old,
       polygons s !! k = Some polygon /\ points polygon !! h = Some old.
Proof.
  intros Hr Hd Hdm Hk Hh. split.
  - apply (settled_resize _ (reachable_Settled _ Hr) Hd Hdm).
  - destruct (inv_resize _ (reachable_Inv _ Hr) Hd Hdm k h Hk Hh)
      as (n & Hn & Hlt).
    unfold shape in Hn. rewrite list_lookup_fmap in Hn.
    destruct (polygons s !! k) as [polygon|]; [|discriminate].
    injection Hn as <-.
    destruct (lookup_lt_is_Some_2 _ _ Hlt) as [old Hold]. eauto.
Qed.

Lemma resize_drag_vertex_valid_witness :
  reachable vertexGrabbed
  /\ activeTool vertexGrabbed = select
  /\ exists polygon old,
       polygons vertexGrabbed !! 0 = Some polygon
       /\ points polygon !! 3 = Some old.
Proof.
  split; [exact reachable_vertexGrabbed|].
  exact (resize_drag_vertex_valid vertexGrabbed 0 3 reachable_vertexGrabbed
           eq_refl eq_refl eq_refl eq_refl).
Defined.

(** X4.  In every reachable state the pencil tool has no drag and no
    anchor, and a shape is in progress only under the pencil tool. *)
Theorem pencil_is_idle_and_owns_the_drawing (s : State) :
  reachable s ->
  (activeTool s = pencil -> isDragging s = false /\ dragStart s = None)
  /\ (activeTool s <> pencil -> currentPoints s = []).
Proof.
  intros Hr. split.
  - intros Htool.
    pose proof (inv_pencil _ (reachable_Inv _ Hr) Htool) as Hidle.
    split; [assumption|].
    destruct (dragStart s) as [p|] eqn:Hds; [|reflexivity].
    pose proof (settled_anchor _ (reachable_Settled _ Hr)) as Ha.
    rewrite Hds in Ha. rewrite Ha in Hidle by eauto. discriminate.
  - apply (settled_drawing _ (reachable_Settled _ Hr)).
Qed.

Lemma pencil_is_idle_and_owns_the_drawing_witness :
  reachable afterThreeClicks
  /\ (activeTool afterThreeClicks = pencil ->
      isDragging afterThreeClicks = false /\ dragStart afterThreeClicks = None)
  /\ (activeTool afterThreeClicks <> pencil ->
      currentPoints afterThreeClicks = []).
Proof.
  split; [exact reachable_afterThreeClicks|].
  exact (pencil_is_idle_and_owns_the_drawing afterThreeClicks
           reachable_afterThreeClicks).
Defined.

(** X5.  In every reachable state a drag is active exactly when an anchor
    is recorded. *)
Theorem drag_iff_anchor (s : State) :
  reachable s -> (isDragging s = true <-> is_Some (dragStart s)).
Proof.
  intros Hr. split.
  - apply (inv_anchor _ (reachable_Inv _ Hr)).
  - apply (settled_anchor _ (reachable_Settled _ Hr)).
Qed.

Lemma drag_iff_anchor_witness :
  reachable triangleSelected
  /\ (isDragging triangleSelected = true
      <-> is_Some (dragStart triangleSelected)).
Proof.
  split; [exact reachable_triangleSelected|].
  exact (drag_iff_anchor triangleSelected reachable_triangleSelected).
Defined.

(** X6.  In every reachable state the polygon at position [k] of the store
    has the colour [colors[k mod 8]]: colours depend on the order of
    creation only and survive every edit. *)
Theorem polygon_colors_follow_palette (s : State) (k : nat)
    (polygon : Polygon) :
  reachable s ->
  polygons s !! k = Some polygon ->
  colors !! (k mod 8) = Some (color polygon).
Proof.
  intros Hr Hk.
  rewrite (settled_palette _ (reachable_Settled _ Hr) k polygon Hk).
  assert (Hlt : k mod 8 < 8) by (apply Nat.mod_upper_bound; lia).
  destruct (k mod 8) as [|[|[|[|[|[|[|[|n]]]]]]]]; try reflexivity; lia.
Qed.

Lemma polygon_colors_follow_palette_witness :
  reachable triangleSelected
  /\ colors !! (1 mod 8)
     = Some (color {| points := [pt 200 0; pt 300 0; pt 300 100];
                      color := "#e74c3c" |}).
Proof.
  split; [exact reachable_triangleSelected|].
  exact (polygon_colors_follow_palette triangleSelected 1 _
           reachable_triangleSelected eq_refl).
Defined.

Lemma reachable_handDragging : reachable handDragging.
Proof.
  exists (drawTriangle ++ [Commit (pt 5 5); SetTool hand; Press (pt 80 20)]).
  vm_compute. reflexivity.
Qed.

Lemma closesShape_nil (point : Point) (s : State) :
  currentPoints s = [] -> closesShape point s = false.
Proof. intros H. unfold closesShape. now rewrite H. Qed.

Lemma hasEdgePoint_true (point : Point) (s : State) (i : nat)
    (polygon : Polygon) (edgePoint : EdgePoint) :
  polygons s !! i = Some polygon ->
  findClosestEdgePoint point (points polygon) = Some edgePoint ->
  hasEdgePoint point s i = true.
Proof. intros Hi Hep. unfold hasEdgePoint. now rewrite Hi, Hep. Qed.

(** X8.  Under the pencil with no drag and no shape in progress, a click
    near an edge splits the topmost polygon that has such an edge: the
    point returned by [findClosestEdgePoint] becomes the vertex at the
    returned index of that polygon and removing it gives the old points
    back; the colour and every other polygon are untouched; that polygon
    and the new vertex become the selection and no shape is started. *)
Theorem click_on_edge_inserts_vertex (s : State) (point : Point) (i : nat)
    (polygon : Polygon) (edgePoint : EdgePoint) :
  activeTool s = pencil ->
  isDragging s = false ->
  currentPoints s = [] ->
  polygons s !! i = Some polygon ->
  findClosestEdgePoint point (points polygon) = Some edgePoint ->
  (forall j, i < j < length (polygons s) -> hasEdgePoint point s j = false) ->
  exists (s' : State) (polygon' : Polygon),
    step s (Commit point) = Some s'
    /\ polygons s' !! i = Some polygon'
    /\ color polygon' = color polygon
    /\ points polygon' !! ep_index edgePoint = Some (ep_point edgePoint)
    /\ delete (ep_index edgePoint) (points polygon') = points polygon
    /\ (forall j, j <> i -> polygons s' !! j = polygons s !! j)
    /\ selectedPolygon s' = Some i
    /\ selectedHandle s' = Some (ep_index edgePoint)
    /\ currentPoints s' = []
    /\ isDragging s' = false.
Proof.
  intros Htool Hidle Hcp Hi Hep Htop.
  pose proof (findClosestEdgePoint_index _ _ _ Hep) as [_ Hidx].
  pose proof (lookup_lt_Some _ _ _ Hi) as Hlt.
  exists (edgeInserted i polygon edgePoint s),
         (withPoints polygon
            (splice (ep_index edgePoint) (ep_point edgePoint) (points polygon))).
  split.
  - simpl. unfold handleInteraction. rewrite Hidle, Htool. simpl. f_equal.
    destruct (handlePencilInteraction_cases point s)
      as [[Hc _]|[(_ & _ & i' & polygon' & ep' & Hi' & Hep' & Htop' & ->)
                 |(_ & Hnone & _)]].
    + rewrite closesShape_nil in Hc by assumption. discriminate.
    + assert (i' = i) as ->.
      { pose proof (lookup_lt_Some _ _ _ Hi') as Hlt'.
        destruct (Nat.lt_trichotomy i i') as [Hc|[Hc|Hc]]; [|auto|].
        - specialize (Htop i' ltac:(lia)).
          rewrite (hasEdgePoint_true _ _ _ _ _ Hi' Hep') in Htop.
          discriminate.
        - specialize (Htop' i ltac:(lia)).
          rewrite (hasEdgePoint_true _ _ _ _ _ Hi Hep) in Htop'.
          discriminate. }
      rewrite Hi in Hi'. injection Hi' as <-.
      rewrite Hep in Hep'. injection Hep' as <-. reflexivity.
    + specialize (Hnone Hcp i Hlt).
      rewrite (hasEdgePoint_true _ _ _ _ _ Hi Hep) in Hnone. discriminate.
  - unfold edgeInserted. simpl.
    split; [now apply list_lookup_insert_eq|].
    split; [reflexivity|].
    split; [now apply splice_lookup|].
    split; [now apply splice_delete|].
    split; [intros j Hj; apply list_lookup_insert_ne; congruence|].
    auto.
Qed.

Lemma click_on_edge_inserts_vertex_witness :
  findClosestEdgePoint (pt 50 3) (points triangle)
  = Some {| ep_point := pt 50 0; ep_index := 1 |}
  /\ exists (s' : State) (polygon' : Polygon),
       step afterTriangle (Commit (pt 50 3)) = Some s'
       /\ polygons s' !! 0 = Some polygon'
       /\ color polygon' = color triangle
       /\ points polygon' !! 1 = Some (pt 50 0)
       /\ delete 1 (points polygon') = points triangle
       /\ (forall j, j <> 0 -> polygons s' !! j = polygons afterTriangle !! j)
       /\ selectedPolygon s' = Some 0
       /\ selectedHandle s' = Some 1
       /\ currentPoints s' = []
       /\ isDragging s' = false.
Proof.
  split; [vm_compute; reflexivity|].
  apply (click_on_edge_inserts_vertex afterTriangle (pt 50 3) 0 triangle
           {| ep_point := pt 50 0; ep_index := 1 |});
    [reflexivity|reflexivity|reflexivity|reflexivity
    |vm_compute; reflexivity|simpl; intros j Hj; lia].
Defined.

(** X9.  Under the pencil with no drag, a click that does not close the
    shape in progress and finds no edge to split is appended to the shape in
    progress, and nothing else changes.  Edges are looked for only when no
    shape is in progress: while one is, a click next to an edge of a
    committed polygon is appended like any other. *)
Theorem click_elsewhere_appends_point (s : State) (point : Point) :
  activeTool s = pencil ->
  isDragging s = false ->
  closesShape point s = false ->
  (currentPoints s = [] ->
   forall j, j < length (polygons s) -> hasEdgePoint point s j = false) ->
  step s (Commit point)
  = Some (setCurrentPoints (currentPoints s ++ [point]) s).
Proof.
  intros Htool Hidle Hc Hnone.
  simpl. unfold handleInteraction. rewrite Hidle, Htool. simpl. f_equal.
  destruct (handlePencilInteraction_cases point s)
    as [[Hc' _]|[(_ & Hcp & i & polygon & ep & Hi & Hep & _)|(_ & _ & ->)]].
  - congruence.
  - specialize (Hnone Hcp i (lookup_lt_Some _ _ _ Hi)).
    rewrite (hasEdgePoint_true _ _ _ _ _ Hi Hep) in Hnone. discriminate.
  - reflexivity.
Qed.

Lemma click_elsewhere_appends_point_witness :
  closesShape (pt 50 3) (setPolygons [triangle] afterThreeClicks) = false
  /\ hasEdgePoint (pt 50 3) (setPolygons [triangle] afterThreeClicks) 0 = true
  /\ step (setPolygons [triangle] afterThreeClicks) (Commit (pt 50 3))
     = Some (setCurrentPoints [pt 0 0; pt 100 0; pt 100 100; pt 50 3]
               (setPolygons [triangle] afterThreeClicks)).
Proof.
  split; [vm_compute; reflexivity|]. split; [vm_compute; reflexivity|].
  apply (click_elsewhere_appends_point
           (setPolygons [triangle] afterThreeClicks) (pt 50 3));
    [reflexivity|reflexivity|vm_compute; reflexivity|simpl; discriminate].
Defined.

Lemma findFirst_all_false (idx : list nat) (test : nat -> bool) :
  (forall i, In i idx -> test i = false) -> findFirst idx test = None.
Proof.
  induction idx as [|i rest IH]; intros H; simpl; [reflexivity|].
  rewrite (H i) by (now left). apply IH. intros j Hj. apply H. now right.
Qed.

(** X10.  Outside the pencil, a press that is near no vertex of the
    selected polygon (vertices are tested under the select tool only)
    selects the topmost polygon whose fill contains the point, that is the
    one with the greatest index, and starts moving it with the press point
    as anchor; when no polygon contains the point it clears the selected
    polygon and the selected vertex and leaves the drag flag as it was.
    The polygons are not changed. *)
Theorem press_selects_topmost_polygon (s : State) (point : Point) :
  activeTool s <> pencil ->
  (activeTool s = select ->
   forall sp, selectedPolygon s = Some sp ->
     exists polygon,
       polygons s !! sp = Some polygon
       /\ forall j, j < length (points polygon) ->
            nearHandleAt point polygon j = false) ->
  exists s' : State,
    step s (Press point) = Some s'
    /\ polygons s' = polygons s
    /\ match selectedPolygon s' with
       | Some i =>
           containsAt point s i = true
           /\ (forall j, i < j < length (polygons s) ->
                 containsAt point s j = false)
           /\ s' = setDragMode move
                     (setDragStart (Some point)
                       (setIsDragging true (setSelectedPolygon (Some i) s)))
       | None =>
           (forall j, j < length (polygons s) -> containsAt point s j = false)
           /\ s' = setSelectedHandle None (setSelectedPolygon None s)
       end.
Proof.
  intros Htool Hfar. exists (selectByFill point s).
  split.
  - simpl. unfold handleStart.
    destruct (activeTool s) eqn:Ht; [reflexivity|congruence|]. simpl.
    destruct (selectedPolygon s) as [sp|] eqn:Hsp; [|reflexivity].
    destruct (Hfar eq_refl sp eq_refl) as (polygon & Hp & Hnone).
    rewrite Hp.
    rewrite findFirst_all_false; [reflexivity|].
    intros i Hi. apply in_seq in Hi. apply (Hnone i). lia.
  - split; [apply selectByFill_polygons|].
    destruct (selectByFill_cases point s)
      as [(i & Hi & Hc & Htop & ->)|[Hnone ->]]; simpl; auto.
Qed.

Lemma press_selects_topmost_polygon_witness :
  activeTool handIdle <> pencil
  /\ exists s' : State,
       step handIdle (Press (pt 80 20)) = Some s'
       /\ polygons s' = polygons handIdle
       /\ match selectedPolygon s' with
          | Some i =>
              containsAt (pt 80 20) handIdle i = true
              /\ (forall j, i < j < length (polygons handIdle) ->
                    containsAt (pt 80 20) handIdle j = false)
              /\ s' = setDragMode move
                        (setDragStart (Some (pt 80 20))
                          (setIsDragging true
                            (setSelectedPolygon (Some i) handIdle)))
          | None =>
              (forall j, j < length (polygons handIdle) ->
                 containsAt (pt 80 20) handIdle j = false)
              /\ s' = setSelectedHandle None (setSelectedPolygon None handIdle)
          end.
Proof.
  assert (Htool : activeTool handIdle <> pencil) by discriminate.
  split; [exact Htool|].
  apply (press_selects_topmost_polygon handIdle (pt 80 20) Htool).
  discriminate.
Defined.

Lemma step_total_select (s : State) (point : Point) (sp : nat)
    (polygon : Polygon) :
  activeTool s = select -> selectedPolygon s = Some sp ->
  polygons s !! sp = Some polygon ->
  exists s', handleStart point s = Some s'.
Proof.
  intros Htool Hsp Hp. unfold handleStart. rewrite Htool. simpl.
  rewrite Hsp, Hp. destruct (findFirst _ _); eauto.
Qed.

(** X11.  Under the select tool with a selected polygon, a press within
    [HANDLE_SIZE] of one of its vertices starts a resize drag on the first
    such vertex in index order, whatever polygons contain the point: the
    selected polygon stays, the vertex is selected, the anchor is the press
    point and no polygon changes. *)
Theorem press_on_vertex_starts_resize (s : State) (point : Point)
    (sp i : nat) (polygon : Polygon) :
  activeTool s = select ->
  selectedPolygon s = Some sp ->
  polygons s !! sp = Some polygon ->
  i < length (points polygon) ->
  nearHandleAt point polygon i = true ->
  (forall j, j < i -> nearHandleAt point polygon j = false) ->
  step s (Press point)
  = Some (setDragStart (Some point)
           (setIsDragging true
             (setSelectedHandle (Some i) (setDragMode resize s)))).
Proof.
  intros Htool Hsp Hp Hi Hnear Hleast.
  destruct (step_total_select s point sp polygon Htool Hsp Hp) as [s' Hs].
  simpl. rewrite Hs. f_equal.
  apply handleStart_cases in Hs
    as [[Hpen _]|[(_ & sp' & polygon' & i' & Hsp' & Hp' & Hi' & Hnear' & Hleast'
                   & ->)|(_ & Hnone & _)]].
  - congruence.
  - rewrite Hsp in Hsp'. injection Hsp' as <-.
    rewrite Hp in Hp'. injection Hp' as <-.
    assert (i' = i) as ->; [|reflexivity].
    destruct (Nat.lt_trichotomy i i') as [Hc|[Hc|Hc]]; [|auto|].
    + rewrite (Hleast' i Hc) in Hnear. discriminate.
    + rewrite (Hleast i' Hc) in Hnear'. discriminate.
  - rewrite (Hnone Htool sp polygon Hsp Hp i Hi) in Hnear. discriminate.
Qed.

Lemma press_on_vertex_starts_resize_witness :
  nearHandleAt (pt 0 100)
    {| points := [pt 0 0; pt 100 0; pt 100 100; pt 0 100];
       color := "#3498db" |} 3 = true
  /\ step vertexOfSquareSelected (Press (pt 0 100)) = Some vertexGrabbed.
Proof.
  split; [vm_compute; reflexivity|].
  apply (press_on_vertex_starts_resize vertexOfSquareSelected (pt 0 100) 0 3
           {| points := [pt 0 0; pt 100 0; pt 100 100; pt 0 100];
              color := "#3498db" |});
    [reflexivity|reflexivity|reflexivity|simpl; lia|vm_compute; reflexivity|].
  intros [|[|[|j]]] Hj; [vm_compute; reflexivity..|lia].
Defined.

(* ===================================================================== *)
(** * Dragging *)
(* ===================================================================== *)

(** X12.  A move during a drag in move mode translates the selected
    polygon: each of its points is shifted by the offset of the event point
    from the anchor, its colour and the number of its points are kept, the
    other polygons are untouched and the event point becomes the anchor;
    tool, selection and drag flag stay as they are. *)
Theorem move_translates_selected_polygon (s : State) (point anchor : Point)
    (sp : nat) (polygon : Polygon) :
  isDragging s = true ->
  selectedPolygon s = Some sp ->
  dragStart s = Some anchor ->
  dragMode s = move ->
  polygons s !! sp = Some polygon ->
  exists (s' : State) (polygon' : Polygon),
    step s (Move point) = Some s'
    /\ polygons s' !! sp = Some polygon'
    /\ color polygon' = color polygon
    /\ points polygon'
       = map (shift (x point - x anchor)%float (y point - y anchor)%float)
             (points polygon)
    /\ (forall k, k <> sp -> polygons s' !! k = polygons s !! k)
    /\ length (polygons s') = length (polygons s)
    /\ dragStart s' = Some point
    /\ s' = setDragStart (Some point) (setPolygons (polygons s') s).
Proof.
  intros Hd Hsp Hds Hdm Hp.
  eexists. eexists. split.
  - simpl. unfold handleMove, movedPolygons.
    rewrite Hd, Hsp, Hds, Hdm, Hp. simpl.
    destruct (selectedHandle s); reflexivity.
  - simpl. pose proof (lookup_lt_Some _ _ _ Hp) as Hlt.
    split; [now apply list_lookup_insert_eq|].
    repeat split.
    + intros k Hk. apply list_lookup_insert_ne. congruence.
    + apply length_insert.
Qed.

Lemma move_translates_selected_polygon_witness :
  exists (s' : State) (polygon' : Polygon),
    step handDragging (Move (pt 90 25)) = Some s'
    /\ polygons s' !! 0 = Some polygon'
    /\ color polygon' = color triangle
    /\ points polygon'
       = map (shift (x (pt 90 25) - x (pt 80 20))%float
                    (y (pt 90 25) - y (pt 80 20))%float) (points triangle)
    /\ (forall k, k <> 0 -> polygons s' !! k = polygons handDragging !! k)
    /\ length (polygons s') = length (polygons handDragging)
    /\ dragStart s' = Some (pt 90 25)
    /\ s' = setDragStart (Some (pt 90 25)) (setPolygons (polygons s') handDragging).
Proof.
  exact (move_translates_selected_polygon handDragging (pt 90 25) (pt 80 20)
           0 triangle eq_refl eq_refl eq_refl eq_refl eq_refl).
Defined.

(** X13.  A move during a drag in resize mode with a selected vertex moves
    that vertex alone, by the offset of the event point from the anchor:
    the other vertices of the selected polygon, its colour, the number of
    its points and the other polygons are untouched, and the event point
    becomes the anchor. *)
Theorem move_relocates_selected_vertex (s : State) (point anchor old : Point)
    (sp sh : nat) (polygon : Polygon) :
  isDragging s = true ->
  selectedPolygon s = Some sp ->
  dragStart s = Some anchor ->
  dragMode s = resize ->
  selectedHandle s = Some sh ->
  polygons s !! sp = Some polygon ->
  points polygon !! sh = Some old ->
  exists (s' : State) (polygon' : Polygon),
    step s (Move point) = Some s'
    /\ polygons s' !! sp = Some polygon'
    /\ color polygon' = color polygon
    /\ points polygon' !! sh
       = Some (shift (x point - x anchor)%float (y point - y anchor)%float old)
    /\ (forall i, i <> sh -> points polygon' !! i = points polygon !! i)
    /\ length (points polygon') = length (points polygon)
    /\ (forall k, k <> sp -> polygons s' !! k = polygons s !! k)
    /\ dragStart s' = Some point
    /\ s' = setDragStart (Some point) (setPolygons (polygons s') s).
Proof.
  intros Hd Hsp Hds Hdm Hsh Hp Hold.
  eexists. eexists. split.
  - simpl. unfold handleMove, movedPolygons.
    rewrite Hd, Hsp, Hds, Hdm, Hsh, Hp, Hold. reflexivity.
  - simpl. pose proof (lookup_lt_Some _ _ _ Hp) as Hlt.
    pose proof (lookup_lt_Some _ _ _ Hold) as Hlt'.
    split; [now apply list_lookup_insert_eq|].
    simpl. repeat split.
    + now apply list_lookup_insert_eq.
    + intros i Hi. apply list_lookup_insert_ne. congruence.
    + apply length_insert.
    + intros k Hk. apply list_lookup_insert_ne. congruence.
Qed.

Lemma move_relocates_selected_vertex_witness :
  exists (s' : State) (polygon' : Polygon),
    step vertexGrabbed (Move (pt 10 120)) = Some s'
    /\ polygons s' !! 0 = Some polygon'
    /\ color polygon' = "#3498db"%string
    /\ points polygon' !! 3
       = Some (shift (x (pt 10 120) - x (pt 0 100))%float
                     (y (pt 10 120) - y (pt 0 100))%float (pt 0 100))
    /\ (forall i, i <> 3 ->
          points polygon' !! i
          = [pt 0 0; pt 100 0; pt 100 100; pt 0 100] !! i)
    /\ length (points polygon') = 4
    /\ (forall k, k <> 0 -> polygons s' !! k = polygons vertexGrabbed !! k)
    /\ dragStart s' = Some (pt 10 120)
    /\ s' = setDragStart (Some (pt 10 120))
              (setPolygons (polygons s') vertexGrabbed).
Proof.
  exact (move_relocates_selected_vertex vertexGrabbed (pt 10 120) (pt 0 100)
           (pt 0 100) 0 3
           {| points := [pt 0 0; pt 100 0; pt 100 100; pt 0 100];
              color := "#3498db" |}
           eq_refl eq_refl eq_refl eq_refl eq_refl eq_refl eq_refl).
Defined.

(** X14.  The committed polygons change only through a click under the
    pencil while no drag is active, or through a move during a drag with a
    selected polygon and an anchor: a press, a release, a tool switch, a
    click under another tool or during a drag, and a move outside a drag
    leave every polygon as it is. *)
Theorem polygons_change_only_by_click_or_drag (s s' : State) (e : Event) :
  step s e = Some s' ->
  polygons s' <> polygons s ->
  (exists point, e = Commit point
                 /\ activeTool s = pencil /\ isDragging s = false)
  \/ (exists point, e = Move point
                    /\ isDragging s = true
                    /\ is_Some (selectedPolygon s)
                    /\ is_Some (dragStart s)).
Proof.
  intros Hs Hne. destruct e as [point|point| |point|tool]; simpl in Hs.
  - destruct Hne. eapply handleStart_polygons, Hs.
  - right. exists point. split; [reflexivity|].
    apply handleMove_cases in Hs
      as [[_ ->]|(Hd & sp & anchor & ups & Hsp & Hds & _ & _)];
      [now destruct Hne|].
    rewrite Hsp, Hds. eauto.
  - injection Hs as <-. destruct Hne. unfold handleEnd.
    destruct (negb (isDragging s)); reflexivity.
  - left. exists point. split; [reflexivity|].
    injection Hs as <-. unfold handleInteraction in Hne.
    destruct (isDragging s); [now destruct Hne|].
    destruct (Tool_eqb (activeTool s) pencil) eqn:Ht; [|now destruct Hne].
    apply Tool_eqb_eq in Ht. auto.
  - injection Hs as <-. destruct Hne. destruct tool; reflexivity.
Qed.

Lemma polygons_change_only_by_click_or_drag_witness :
  step afterThreeClicks (Commit (pt 5 5)) = Some afterTriangle
  /\ ((exists point, Commit (pt 5 5) = Commit point
                     /\ activeTool afterThreeClicks = pencil
                     /\ isDragging afterThreeClicks = false)
      \/ (exists point, Commit (pt 5 5) = Move point
                        /\ isDragging afterThreeClicks = true
                        /\ is_Some (selectedPolygon afterThreeClicks)
                        /\ is_Some (dragStart afterThreeClicks))).
Proof.
  split; [vm_compute; reflexivity|].
  apply (polygons_change_only_by_click_or_drag afterThreeClicks afterTriangle);
    [vm_compute; reflexivity|discriminate].
Defined.

(** X15.  Outside the select tool no vertex is ever moved alone: in a
    reachable state whose tool is the hand or the pencil, a move event
    either changes nothing or translates the whole selected polygon. *)
Theorem move_outside_select_translates (s s' : State) (point : Point) :
  reachable s ->
  activeTool s <> select ->
  step s (Move point) = Some s' ->
  s' = s
  \/ exists sp anchor polygon,
       selectedPolygon s = Some sp /\ dragStart s = Some anchor
       /\ polygons s !! sp = Some polygon
       /\ s' = setDragStart (Some point)
                 (setPolygons
                    (<[sp := withPoints polygon
                               (map (shift (x point - x anchor)%float
                                           (y point - y anchor)%float)
                                    (points polygon))]> (polygons s)) s).
Proof.
  intros Hr Htool Hs. simpl in Hs.
  apply handleMove_cases in Hs
    as [[_ ->]|(Hd & sp & anchor & ups & Hsp & Hds & Hm & ->)]; [now left|].
  right. exists sp, anchor.
  apply movedPolygons_cases in Hm
    as [(Hdm & _)|[(_ & polygon & Hp & ->)|(Hdm & _)]].
  - destruct Htool. apply (settled_resize _ (reachable_Settled _ Hr) Hd Hdm).
  - exists polygon. auto.
  - destruct Htool. apply (settled_resize _ (reachable_Settled _ Hr) Hd Hdm).
Qed.

Lemma move_outside_select_translates_witness :
  reachable handDragging
  /\ exists s' : State,
       step handDragging (Move (pt 90 25)) = Some s'
       /\ (s' = handDragging
           \/ exists sp anchor polygon,
                selectedPolygon handDragging = Some sp
                /\ dragStart handDragging = Some anchor
                /\ polygons handDragging !! sp = Some polygon
                /\ s' = setDragStart (Some (pt 90 25))
                          (setPolygons
                             (<[sp := withPoints polygon
                                        (map (shift (x (pt 90 25) - x anchor)%float
                                                    (y (pt 90 25) - y anchor)%float)
                                             (points polygon))]>
                                (polygons handDragging)) handDragging)).
Proof.
  split; [exact reachable_handDragging|].
  eexists. split; [vm_compute; reflexivity|].
  apply (move_outside_select_translates handDragging _ (pt 90 25)
           reachable_handDragging); [discriminate|vm_compute; reflexivity].
Defined.

(** X19.  The tools do not interfere: in a reachable state under the
    pencil, a press and a move leave the state as it is (presses start no
    drag and there is no drag to continue); under the hand or the select
    tool a click leaves the state as it is; and a click that arrives during
    a drag is ignored whatever the tool. *)
Theorem tools_do_not_interfere (s : State) (point : Point) :
  reachable s ->
  (activeTool s = pencil ->
   step s (Press point) = Some s /\ step s (Move point) = Some s)
  /\ (activeTool s <> pencil -> step s (Commit point) = Some s)
  /\ (isDragging s = true -> step s (Commit point) = Some s).
Proof.
  intros Hr. split; [|split].
  - intros Htool. simpl. unfold handleStart, handleMove.
    rewrite (inv_pencil _ (reachable_Inv _ Hr) Htool), Htool. auto.
  - intros Htool. simpl. unfold handleInteraction.
    destruct (isDragging s); [reflexivity|].
    destruct (activeTool s); try reflexivity. congruence.
  - intros Hd. simpl. unfold handleInteraction. now rewrite Hd.
Qed.

Lemma tools_do_not_interfere_witness :
  reachable afterThreeClicks
  /\ (activeTool afterThreeClicks = pencil ->
      step afterThreeClicks (Press (pt 50 50)) = Some afterThreeClicks
      /\ step afterThreeClicks (Move (pt 50 50)) = Some afterThreeClicks)
  /\ (activeTool afterThreeClicks <> pencil ->
      step afterThreeClicks (Commit (pt 50 50)) = Some afterThreeClicks)
  /\ (isDragging afterThreeClicks = true ->
      step afterThreeClicks (Commit (pt 50 50)) = Some afterThreeClicks).
Proof.
  split; [exact reachable_afterThreeClicks|].
  exact (tools_do_not_interfere afterThreeClicks (pt 50 50)
           reachable_afterThreeClicks).
Defined.

(* ===================================================================== *)
(** * The store along a run *)
(* ===================================================================== *)

Lemma keeps_refl (ps : list Polygon) : keeps ps ps.
Proof. intros k polygon Hk. eauto. Qed.

Lemma keeps_trans (a b c : list Polygon) : keeps a b -> keeps b c -> keeps a c.
Proof.
  intros Hab Hbc k p Hk.
  destruct (Hab k p Hk) as (p1 & Hk1 & Hc1 & Hl1).
  destruct (Hbc k p1 Hk1) as (p2 & Hk2 & Hc2 & Hl2).
  exists p2. repeat split; [assumption|congruence|lia].
Qed.

Lemma keeps_insert (ps : list Polygon) (i : nat) (polygon : Polygon)
    (pts : list Point) :
  ps !! i = Some polygon ->
  length (points polygon) <= length pts ->
  keeps ps (<[i := withPoints polygon pts]> ps).
Proof.
  intros Hi Hlen k q Hk. destruct (Nat.eq_dec i k) as [<-|Hne].
  - rewrite Hi in Hk. injection Hk as <-.
    exists (withPoints polygon pts).
    rewrite list_lookup_insert_eq by (eapply lookup_lt_Some, Hi). auto.
  - exists q. rewrite list_lookup_insert_ne by assumption. auto.
Qed.

Lemma step_keeps (s s' : State) (e : Event) :
  step s e = Some s' -> keeps (polygons s) (polygons s').
Proof.
  destruct e as [point|point| |point|tool]; simpl.
  - intros H. rewrite (handleStart_polygons _ _ _ H). apply keeps_refl.
  - intros H. apply handleMove_cases in H
      as [[_ ->]|(_ & sp & anchor & ups & _ & _ & Hm & ->)];
      [apply keeps_refl|].
    simpl. apply movedPolygons_cases in Hm
      as [(_ & sh & polygon & old & _ & Hp & _ & ->)
         |[(_ & polygon & Hp & ->)|(_ & _ & ->)]].
    + apply keeps_insert; [assumption|]. now rewrite length_insert.
    + apply keeps_insert; [assumption|]. now rewrite length_map.
    + apply keeps_refl.
  - intros [= <-]. unfold handleEnd.
    destruct (negb (isDragging s)); apply keeps_refl.
  - intros [= <-]. unfold handleInteraction.
    destruct (isDragging s); [apply keeps_refl|].
    destruct (Tool_eqb (activeTool s) pencil); [|apply keeps_refl].
    destruct (handlePencilInteraction_cases point s)
      as [[_ ->]|[(_ & _ & i & polygon & ep & Hi & _ & _ & ->)|(_ & _ & ->)]].
    + intros k q Hk. exists q. simpl.
      rewrite lookup_app_l by (eapply lookup_lt_Some, Hk). auto.
    + simpl. apply keeps_insert; [assumption|]. rewrite splice_length. lia.
    + apply keeps_refl.
  - intros [= <-]. destruct tool; apply keeps_refl.
Qed.

(** X7.  Along any run the store only grows: a polygon present at position
    [k] is still at position [k] afterwards, with the same colour and at
    least as many points.  No event removes, reorders or recolours a
    polygon, or removes a vertex. *)
Theorem store_only_grows (es : list Event) (s s' : State) :
  run s es = Some s' ->
  length (polygons s) <= length (polygons s')
  /\ forall k polygon, polygons s !! k = Some polygon ->
       exists polygon', polygons s' !! k = Some polygon'
                        /\ color polygon' = color polygon
                        /\ length (points polygon) <= length (points polygon').
Proof.
  intros Hrun.
  assert (Hk : keeps (polygons s) (polygons s')).
  { revert s Hrun. induction es as [|e rest IH]; simpl; intros s.
    - intros [= <-]. apply keeps_refl.
    - destruct (step s e) as [s1|] eqn:Hs; [|discriminate].
      intros Hrun. eapply keeps_trans; [eapply step_keeps, Hs|now apply IH]. }
  split; [|exact Hk].
  destruct (le_lt_dec (length (polygons s)) (length (polygons s')))
    as [|Hlt]; [assumption|].
  destruct (polygons s) as [|p0 rest] eqn:Hps; [simpl; lia|].
  assert (Hlast : is_Some ((p0 :: rest) !! length rest))
    by (apply lookup_lt_is_Some_2; simpl; lia).
  destruct Hlast as [q Hq]. destruct (Hk _ _ Hq) as (q' & Hq' & _).
  apply lookup_lt_Some in Hq'. simpl in Hlt. lia.
Qed.

Lemma store_only_grows_witness :
  run afterTriangle [Commit (pt 50 3); SetTool select; Press (pt 80 20);
                     Move (pt 85 20); Release]
  = Some {| currentPoints := []; 
            polygons := [ {| points := [pt 5 0; pt 55 0; pt 105 0; pt 105 100];
                             color := "#3498db" |} ];
            selectedPolygon := Some 0%nat; isDragging := false;
            dragStart := None; activeTool := select; dragMode := move;
            selectedHandle := Some 1%nat |}
  /\ 1 <= 1
  /\ forall k polygon, polygons afterTriangle !! k = Some polygon ->
       exists polygon',
         [ {| points := [pt 5 0; pt 55 0; pt 105 0; pt 105 100];
              color := "#3498db"%string |} ] !! k = Some polygon'
         /\ color polygon' = color polygon
         /\ length (points polygon) <= length (points polygon').
Proof.
  assert (H : run afterTriangle
                [Commit (pt 50 3); SetTool select; Press (pt 80 20);
                 Move (pt 85 20); Release]
              = Some {| currentPoints := [];
                        polygons :=
                          [ {| points := [pt 5 0; pt 55 0; pt 105 0;
                                          pt 105 100];
                               color := "#3498db" |} ];
                        selectedPolygon := Some 0%nat; isDragging := false;
                        dragStart := None; activeTool := select;
                        dragMode := move; selectedHandle := Some 1%nat |})
    by (vm_compute; reflexivity).
  split; [exact H|].
  exact (store_only_grows _ _ _ H).
Defined.

(* ===================================================================== *)
(** * Point in polygon and the starting vertex *)
(* ===================================================================== *)

Lemma last_cons_default {A : Type} (l : list A) (a d d' : A) :
  List.last (a :: l) d = List.last (a :: l) d'.
Proof.
  revert a. induction l as [|b l IH]; intros a; [reflexivity|].
  change (List.last (b :: l) d = List.last (b :: l) d'). apply IH.
Qed.

Lemma last_cons_self {A : Type} (l : list A) (a d : A) :
  List.last (a :: l) d = List.last l a.
Proof.
  destruct l as [|b l]; [reflexivity|].
  change (List.last (b :: l) d = List.last (b :: l) a).
  apply last_cons_default.
Qed.

Lemma lookup_last_cons {A : Type} (l : list A) (a d : A) :
  (a :: l) !! (length (a :: l) - 1) = Some (List.last (a :: l) d).
Proof.
  revert a. induction l as [|b l IH]; intros a; [reflexivity|].
  change (List.last (a :: b :: l) d) with (List.last (b :: l) d).
  rewrite <- IH. simpl. now rewrite Nat.sub_0_r.
Qed.

Lemma crossings_app (point prev z : Point) (l : list Point) :
  crossings point prev (l ++ [z])
  = xorb (crossings point prev l) (intersect point z (List.last l prev)).
Proof.
  revert prev. induction l as [|p rest IH]; intros prev.
  - simpl. now rewrite xorb_false_r.
  - rewrite <- app_comm_cons. cbn [crossings]. rewrite IH.
    rewrite xorb_assoc. now rewrite (last_cons_self rest p prev).
Qed.

(** The loop of [isPointInPolygon] from index [a] on, against the tests
    along the points from [a] on. *)
Lemma crossingStep_fold (point : Point) (polygonPoints : list Point)
    (m a j : nat) (inside : bool) (prev : Point) :
  a + m <= length polygonPoints ->
  polygonPoints !! j = Some prev ->
  fst (fold_left (crossingStep point polygonPoints) (seq a m) (inside, j))
  = xorb inside (crossings point prev (take m (drop a polygonPoints))).
Proof.
  revert a j inside prev. induction m as [|m IH]; intros a j inside prev Ha Hj.
  - simpl. now rewrite xorb_false_r.
  - rewrite <- cons_seq. cbn [fold_left].
    destruct (lookup_lt_is_Some_2 polygonPoints a ltac:(lia)) as [p Hp].
    rewrite (drop_S _ _ _ Hp). cbn [take crossings].
    assert (Hstep : crossingStep point polygonPoints (inside, j) a
                    = (xorb inside (intersect point p prev), a)).
    { unfold crossingStep. rewrite Hp, Hj.
      destruct (intersect point p prev), inside; reflexivity. }
    rewrite Hstep, (IH (S a) a _ p); [|lia|assumption].
    now rewrite xorb_assoc.
Qed.

Lemma isPointInPolygon_crossings (point : Point) (polygonPoints : list Point)
    (default : Point) :
  isPointInPolygon point polygonPoints
  = crossings point (List.last polygonPoints default) polygonPoints.
Proof.
  destruct polygonPoints as [|p0 rest] eqn:Hl; [reflexivity|].
  rewrite <- Hl. unfold isPointInPolygon.
  assert (Hlast : polygonPoints !! (length polygonPoints - 1)
                  = Some (List.last polygonPoints default))
    by (rewrite Hl; apply lookup_last_cons).
  rewrite (crossingStep_fold point polygonPoints (length polygonPoints) 0
             (length polygonPoints - 1) false _ ltac:(lia) Hlast).
  rewrite drop_0, firstn_all. reflexivity.
Qed.

Lemma isPointInPolygon_rotate_one (point a : Point) (l : list Point) :
  isPointInPolygon point (l ++ [a]) = isPointInPolygon point (a :: l).
Proof.
  rewrite (isPointInPolygon_crossings point (l ++ [a]) a).
  rewrite (isPointInPolygon_crossings point (a :: l) a).
  rewrite last_last, crossings_app. cbn [crossings].
  rewrite xorb_comm. now rewrite (last_cons_self l a a).
Qed.

(** X16.  The answer of [isPointInPolygon] does not depend on the vertex
    the polygon starts at: rotating the point sequence gives the same
    answer, the same tests being made on the same pairs of points. *)
Theorem isPointInPolygon_rotation (point : Point) (l1 l2 : list Point) :
  isPointInPolygon point (l1 ++ l2) = isPointInPolygon point (l2 ++ l1).
Proof.
  revert l2. induction l1 as [|a l1 IH]; intros l2.
  - now rewrite app_nil_r.
  - rewrite <- app_comm_cons, <- isPointInPolygon_rotate_one.
    rewrite <- app_assoc, IH, <- app_assoc. reflexivity.
Qed.

(* ===================================================================== *)
(** * Properties of the redraw *)
(* ===================================================================== *)

Lemma countCalls_app (f : DrawCall -> bool) (l1 l2 : list DrawCall) :
  countCalls f (l1 ++ l2) = countCalls f l1 + countCalls f l2.
Proof. induction l1 as [|c l1 IH]; simpl; [reflexivity|]. rewrite IH. lia. Qed.

Lemma countCalls_lineTo (f : DrawCall -> bool) (pts : list Point) :
  (forall cx cy, f (lineTo cx cy) = false) ->
  countCalls f (map (fun p => lineTo (x p) (y p)) pts) = 0.
Proof. intros Hf. induction pts as [|p pts IH]; simpl; [reflexivity|]. now rewrite Hf. Qed.

Lemma countCalls_dots (f : DrawCall -> bool) (pts : list Point) :
  f beginPath = false -> f fill = false ->
  (forall cx cy r a b, f (arc cx cy r a b) = false) ->
  f (fillStyle "#666"%string) = false ->
  countCalls f
    (concat (map (fun p => [ beginPath;
                             arc (x p) (y p) 4%float 0%float
                                 (Math_PI * 2)%float;
                             fillStyle "#666"%string;
                             fill ]) pts)) = 0.
Proof.
  intros Hb Hfi Ha Hfs. induction pts as [|p pts IH]; [reflexivity|].
  cbn [map concat]. rewrite countCalls_app, IH.
  cbn [countCalls]. now rewrite Hb, Ha, Hfs, Hfi.
Qed.

Lemma countCalls_drawCurrentPoints (f : DrawCall -> bool) (pts : list Point) :
  f beginPath = false -> f fill = false -> f stroke = false ->
  (forall cx cy, f (moveTo cx cy) = false) ->
  (forall cx cy, f (lineTo cx cy) = false) ->
  (forall cx cy r a b, f (arc cx cy r a b) = false) ->
  f (strokeStyle "#666"%string) = false ->
  f (fillStyle "#666"%string) = false ->
  countCalls f (drawCurrentPoints pts) = 0.
Proof.
  intros Hb Hfi Hs Hm Hl Ha Hss Hfs. unfold drawCurrentPoints.
  destruct pts as [|p0 rest]; [reflexivity|].
  rewrite !countCalls_app, countCalls_lineTo, countCalls_dots by assumption.
  cbn [countCalls]. now rewrite Hb, Hm, Hss, Hs.
Qed.

Lemma palette_strings (n : nat) :
  String.eqb (nth n colors "" ++ "80")%string "#2563eb"%string = false
  /\ String.eqb (nth n colors ""%string) "#000"%string = false.
Proof.
  do 9 (destruct n as [|n]; [split; reflexivity|]). split; reflexivity.
Qed.

Lemma countCalls_drawPolygon (pts : list Point) (c : string)
    (isSelected : bool) (calls : list DrawCall) :
  String.eqb (c ++ "80")%string "#2563eb"%string = false ->
  String.eqb c "#000"%string = false ->
  drawPolygon pts c isSelected = Some calls ->
  countCalls isRect calls = 0
  /\ countCalls isHighlight calls = 0
  /\ countCalls isSelectedOutline calls = if isSelected then 1 else 0.
Proof.
  intros Hh Ho. unfold drawPolygon.
  destruct (pts !! 0) as [p0|]; [|discriminate].
  intros [= <-].
  cbn [app countCalls isRect isHighlight isSelectedOutline].
  rewrite !countCalls_app, !countCalls_lineTo by reflexivity.
  cbn [countCalls isRect isHighlight isSelectedOutline]. rewrite Hh.
  destruct isSelected; [|rewrite Ho]; auto.
Qed.

(** One more index in front of a range holds the selected index once at
    most. *)
Lemma range_step (index n : nat) (selected : option nat) :
  (if sameIndex index selected then 1 else 0)
  + match selected with
    | Some k => if (S index <=? k) && (k <? S index + n) then 1 else 0
    | None => 0
    end
  = match selected with
    | Some k => if (index <=? k) && (k <? index + S n) then 1 else 0
    | None => 0
    end.
Proof.
  destruct selected as [k|]; [|reflexivity]. unfold sameIndex.
  destruct (Nat.eqb_spec index k), (Nat.leb_spec (S index) k),
           (Nat.ltb_spec k (S index + n)), (Nat.leb_spec index k),
           (Nat.ltb_spec k (index + S n)); simpl; lia.
Qed.

Lemma range_empty (index : nat) (selected : option nat) :
  match selected with
  | Some k => if (index <=? k) && (k <? index + 0) then 1 else 0
  | None => 0
  end = 0.
Proof.
  destruct selected as [k|]; [|reflexivity].
  destruct (Nat.leb_spec index k), (Nat.ltb_spec k (index + 0)); simpl; lia.
Qed.

Lemma countCalls_drawHandlesFrom (pts : list Point) (index : nat)
    (selected : option nat) :
  countCalls isRect (drawHandlesFrom index pts selected) = length pts
  /\ countCalls isSelectedOutline (drawHandlesFrom index pts selected) = 0
  /\ countCalls isHighlight (drawHandlesFrom index pts selected)
     = match selected with
       | Some h => if (index <=? h) && (h <? index + length pts) then 1 else 0
       | None => 0
       end.
Proof.
  revert index. induction pts as [|p pts IH]; intros index.
  - cbn [drawHandlesFrom countCalls length]. rewrite range_empty. auto.
  - cbn [drawHandlesFrom length]. rewrite !countCalls_app.
    destruct (IH (S index)) as (-> & -> & ->).
    rewrite <- range_step. unfold drawHandle.
    cbn [countCalls isRect isHighlight isSelectedOutline].
    destruct (sameIndex index selected); repeat split; cbn; lia.
Qed.

Lemma drawPolygonsFrom_counts (ps : list Polygon) (index : nat)
    (selected : option nat) :
  Forall (fun polygon => 3 <= length (points polygon)
                         /\ exists n, color polygon = nth n colors ""%string)
         ps ->
  exists calls,
    drawPolygonsFrom index ps selected = Some calls
    /\ countCalls isRect calls = 0
    /\ countCalls isHighlight calls = 0
    /\ countCalls isSelectedOutline calls
       = match selected with
         | Some k => if (index <=? k) && (k <? index + length ps) then 1 else 0
         | None => 0
         end.
Proof.
  revert index. induction ps as [|polygon ps IH]; intros index HF.
  - exists []. cbn [drawPolygonsFrom countCalls length].
    rewrite range_empty. auto.
  - apply Forall_cons in HF as [[Hlen [n Hn]] HF].
    destruct (IH (S index) HF) as (more & Hmore & Hr & Hh & Ho).
    cbn [drawPolygonsFrom length]. rewrite Hn.
    destruct (drawPolygon (points polygon) (nth n colors ""%string)
                          (sameIndex index selected)) as [calls|] eqn:Hd.
    2: { unfold drawPolygon in Hd.
         destruct (points polygon) as [|p0 rest]; [simpl in Hlen; lia|].
         discriminate. }
    rewrite Hmore. exists (calls ++ more). split; [reflexivity|].
    destruct (palette_strings n) as [Hhn Hon].
    destruct (countCalls_drawPolygon _ _ _ _ Hhn Hon Hd) as (Hr' & Hh' & Ho').
    rewrite !countCalls_app, Hr, Hh, Ho, Hr', Hh', Ho'.
    rewrite <- range_step. auto.
Qed.

Lemma reachable_polygons_drawable (s : State) :
  reachable s ->
  Forall (fun polygon => 3 <= length (points polygon)
                         /\ exists n, color polygon = nth n colors ""%string)
         (polygons s).
Proof.
  intros Hr. apply Forall_lookup. intros k polygon Hk. split.
  - pose proof (inv_points _ (reachable_Inv _ Hr)) as HF.
    rewrite Forall_lookup in HF. apply (HF k). now apply shape_lookup.
  - exists (k mod 8). now apply (settled_palette _ (reachable_Settled _ Hr)).
Qed.

(** What the redraw of a reachable state consists of. *)
Lemma render_reachable (s : State) :
  reachable s ->
  exists calls : list DrawCall,
    render s = Some calls
    /\ countCalls isRect calls = handlesShown s
    /\ countCalls isHighlight calls = (if handleHighlighted s then 1 else 0)
    /\ countCalls isSelectedOutline calls
       = match selectedPolygon s with Some _ => 1 | None => 0 end.
Proof.
  intros Hr.
  destruct (drawPolygonsFrom_counts (polygons s) 0 (selectedPolygon s)
              (reachable_polygons_drawable s Hr))
    as (shapes & Hshapes & Hr1 & Hh1 & Ho1).
  assert (Hcp : forall f, f = isRect \/ f = isHighlight \/ f = isSelectedOutline ->
                countCalls f (drawCurrentPoints (currentPoints s)) = 0).
  { intros f [->|[->| ->]]; apply countCalls_drawCurrentPoints; reflexivity. }
  unfold render, drawSelectedHandles, handleHighlighted, handlesShown.
  rewrite Hshapes.
  destruct (selectedPolygon s) as [sp|] eqn:Hsp.
  - pose proof (inv_selected _ (reachable_Inv _ Hr) sp Hsp) as Hlt.
    destruct (lookup_lt_is_Some_2 _ _ Hlt) as [polygon Hp].
    rewrite Hp.
    assert (Ho2 : countCalls isSelectedOutline shapes = 1).
    { rewrite Ho1. simpl. now rewrite (proj2 (Nat.ltb_lt _ _) Hlt). }
    destruct (Tool_eqb (activeTool s) select).
    + eexists. split; [reflexivity|].
      destruct (countCalls_drawHandlesFrom (points polygon) 0 (selectedHandle s))
        as (Hr3 & Ho3 & Hh3).
      cbn [countCalls isRect isHighlight isSelectedOutline].
      rewrite !countCalls_app, !Hcp, Hr1, Hh1, Ho2, Hr3, Ho3, Hh3 by auto.
      repeat split; try (destruct (selectedHandle s); reflexivity).
    + eexists. split; [reflexivity|].
      cbn [countCalls isRect isHighlight isSelectedOutline].
      rewrite !countCalls_app, !Hcp, Hr1, Hh1, Ho2 by auto.
      repeat split; try (destruct (selectedHandle s); reflexivity).
  - eexists. split; [reflexivity|].
    cbn [countCalls isRect isHighlight isSelectedOutline].
    rewrite !countCalls_app, !Hcp, Hr1, Hh1, Ho1 by auto.
    repeat split. destruct (selectedHandle s); reflexivity.
Qed.

(** X17.  The redraw never throws in a reachable state: every committed
    polygon has a first point for [drawPolygon] to start from, and the
    selected polygon whose handles are drawn exists. *)
Theorem redraw_never_throws (s : State) :
  reachable s -> is_Some (render s).
Proof.
  intros Hr. destruct (render_reachable s Hr) as (calls & Hc & _). eauto.
Qed.

Lemma redraw_never_throws_witness :
  reachable triangleSelected /\ is_Some (render triangleSelected).
Proof.
  split; [exact reachable_triangleSelected|].
  exact (redraw_never_throws triangleSelected reachable_triangleSelected).
Defined.

(** X18.  In the redraw of a reachable state, handle boxes are drawn only
    under the select tool with a selected polygon, one per vertex of that
    polygon; exactly one polygon is outlined in black when a polygon is
    selected and none otherwise; and a handle is filled as highlighted only
    when the selected vertex index is below the number of vertices of the
    selected polygon, in which case exactly one is. *)
Theorem redraw_shows_selection (s : State) :
  reachable s ->
  exists calls : list DrawCall,
    render s = Some calls
    /\ countCalls isRect calls = handlesShown s
    /\ countCalls isHighlight calls = (if handleHighlighted s then 1 else 0)
    /\ countCalls isSelectedOutline calls
       = match selectedPolygon s with Some _ => 1 | None => 0 end.
Proof. exact (render_reachable s). Qed.

Lemma redraw_shows_selection_witness :
  reachable vertexGrabbed
  /\ exists calls : list DrawCall,
       render vertexGrabbed = Some calls
       /\ countCalls isRect calls = 4
       /\ countCalls isHighlight calls = 1
       /\ countCalls isSelectedOutline calls = 1.
Proof.
  split; [exact reachable_vertexGrabbed|].
  exact (redraw_shows_selection vertexGrabbed reachable_vertexGrabbed).
Defined.

(* ===================================================================== *)
(** * Vertices and clicks *)
(* ===================================================================== *)

Lemma sum_points_insert (ps : list Polygon) (i : nat) (polygon q : Polygon) :
  ps !! i = Some polygon ->
  sum_list_with (fun p => length (points p)) (<[i := q]> ps)
  + length (points polygon)
  = sum_list_with (fun p => length (points p)) ps + length (points q).
Proof.
  revert i. induction ps as [|p ps IH]; intros [|i] Hi; try discriminate.
  - injection Hi as ->. simpl. lia.
  - simpl in *. specialize (IH i Hi). lia.
Qed.

Lemma sum_points_insert_same (ps : list Polygon) (i : nat)
    (polygon : Polygon) (pts : list Point) :
  ps !! i = Some polygon ->
  length pts = length (points polygon) ->
  sum_list_with (fun p => length (points p)) (<[i := withPoints polygon pts]> ps)
  = sum_list_with (fun p => length (points p)) ps.
Proof.
  intros Hi Hlen.
  pose proof (sum_points_insert ps i polygon (withPoints polygon pts) Hi) as H.
  cbn [points withPoints] in H. lia.
Qed.

Lemma handleStart_currentPoints (point : Point) (s s' : State) :
  handleStart point s = Some s' -> currentPoints s' = currentPoints s.
Proof.
  intros H. apply handleStart_cases in H
    as [[_ ->]|[(_ & sp & polygon & i & _ & _ & _ & _ & _ & ->)|(_ & _ & ->)]];
    try reflexivity.
  destruct (selectByFill_cases point s) as [(i & _ & _ & _ & ->)|[_ ->]];
    reflexivity.
Qed.

Lemma step_vertexCount (s s' : State) (e : Event) :
  step s e = Some s' ->
  vertexCount s' <= vertexCount s + clicks [e].
Proof.
  unfold vertexCount.
  destruct e as [point|point| |point|tool]; cbn [step clicks].
  - intros H. rewrite (handleStart_polygons _ _ _ H),
                      (handleStart_currentPoints _ _ _ H). lia.
  - intros H. apply handleMove_cases in H
      as [[_ ->]|(_ & sp & anchor & ups & _ & _ & Hm & ->)]; [lia|].
    cbn [polygons currentPoints setDragStart setPolygons].
    apply movedPolygons_cases in Hm
      as [(_ & sh & polygon & old & _ & Hp & _ & ->)
         |[(_ & polygon & Hp & ->)|(_ & _ & ->)]]; [| |lia].
    + rewrite sum_points_insert_same by (assumption || apply length_insert).
      lia.
    + rewrite sum_points_insert_same by (assumption || apply length_map).
      lia.
  - intros [= <-]. unfold handleEnd.
    destruct (negb (isDragging s)); simpl; lia.
  - intros [= <-]. unfold handleInteraction.
    destruct (isDragging s); [lia|].
    destruct (Tool_eqb (activeTool s) pencil); [|lia].
    destruct (handlePencilInteraction_cases point s)
      as [[_ ->]|[(_ & Hcp & i & polygon & ep & Hi & _ & _ & ->)|(_ & _ & ->)]].
    + cbn [committed polygons currentPoints setCurrentPoints setPolygons].
      rewrite sum_list_with_app. simpl. lia.
    + cbn [edgeInserted polygons currentPoints setSelectedHandle
             setSelectedPolygon setPolygons].
      pose proof (sum_points_insert (polygons s) i polygon
                    (withPoints polygon
                       (splice (ep_index ep) (ep_point ep) (points polygon)))
                    Hi) as Hsum.
      cbn [points withPoints] in Hsum. rewrite splice_length in Hsum.
      rewrite Hcp. simpl length. lia.
    + cbn [polygons currentPoints setCurrentPoints].
      rewrite length_app. simpl. lia.
  - intros [= <-]. destruct tool; simpl; lia.
Qed.

Lemma clicks_cons (e : Event) (es : list Event) :
  clicks (e :: es) = clicks [e] + clicks es.
Proof. destruct e; reflexivity. Qed.

(** X20.  Every vertex comes from a click: after any event sequence from
    the initial state, the vertices of the committed polygons and of the
    shape in progress are together at most as many as the clicks of the
    sequence (a closing click adds none, a tool switch may discard some,
    presses, moves and releases add none). *)
Theorem vertices_come_from_clicks (es : list Event) (s : State) :
  run init es = Some s -> vertexCount s <= clicks es.
Proof.
  assert (H : forall s0, run s0 es = Some s ->
                         vertexCount s <= vertexCount s0 + clicks es).
  { induction es as [|e rest IH]; intros s0.
    - intros [= <-]. simpl. lia.
    - simpl run. destruct (step s0 e) as [s1|] eqn:Hs; [|discriminate].
      intros Hrun. specialize (IH s1 Hrun).
      pose proof (step_vertexCount _ _ _ Hs). rewrite clicks_cons. lia. }
  intros Hrun. apply (H init Hrun).
Qed.

Lemma vertices_come_from_clicks_witness :
  run init (drawTriangle ++ [Commit (pt 5 5)]) = Some afterTriangle
  /\ vertexCount afterTriangle <= clicks (drawTriangle ++ [Commit (pt 5 5)]).
Proof.
  assert (H : run init (drawTriangle ++ [Commit (pt 5 5)]) = Some afterTriangle)
    by (vm_compute; reflexivity).
  split; [exact H|].
  exact (vertices_come_from_clicks _ _ H).
Defined.

(* ===================================================================== *)
(** * Points above or below a polygon *)
(* ===================================================================== *)

Lemma crossings_same_side (point prev : Point) (l : list Point) (b : bool) :
  (y point <? y prev)%float = b ->
  Forall (fun v => (y point <? y v)%float = b) l ->
  crossings point prev l = false.
Proof.
  revert prev. induction l as [|p l IH]; intros prev Hprev HF; [reflexivity|].
  apply Forall_cons in HF as [Hp HF].
  cbn [crossings]. rewrite (IH p Hp HF). unfold intersect.
  rewrite Hp, Hprev, xorb_nilpotent. reflexivity.
Qed.

Lemma last_Forall {A : Type} (P : A -> Prop) (l : list A) (a d : A) :
  Forall P (a :: l) -> P (List.last (a :: l) d).
Proof.
  revert a. induction l as [|b l IH]; intros a HF.
  - now apply Forall_cons in HF as [Ha _].
  - apply Forall_cons in HF as [_ HF].
    change (P (List.last (b :: l) d)). now apply IH.
Qed.

(** X21.  A point that no vertex separates vertically from the others is
    outside: when the comparison [y > point.y] has the same outcome for
    every vertex (the polygon lies entirely above, or entirely not above,
    the horizontal line through the point), [isPointInPolygon] answers
    false. *)
Theorem point_beside_vertical_range_is_outside (point : Point)
    (polygonPoints : list Point) (b : bool) :
  Forall (fun v => (y point <? y v)%float = b) polygonPoints ->
  isPointInPolygon point polygonPoints = false.
Proof.
  intros HF. destruct polygonPoints as [|p0 rest]; [reflexivity|].
  rewrite (isPointInPolygon_crossings point (p0 :: rest) p0).
  apply crossings_same_side with (b := b); [|assumption].
  apply (last_Forall (fun v => (y point <? y v)%float = b)), HF.
Qed.

Lemma point_beside_vertical_range_is_outside_witness :
  Forall (fun v => (y (pt 50 200) <? y v)%float = false) (points triangle)
  /\ isPointInPolygon (pt 50 200) (points triangle) = false.
Proof.
  assert (H : Forall (fun v => (y (pt 50 200) <? y v)%float = false)
                     (points triangle))
    by (repeat constructor).
  split; [exact H|].
  exact (point_beside_vertical_range_is_outside (pt 50 200) (points triangle)
           false H).
Defined.
